(** * MultiConvertPro: document routing and job orchestration

    A shallow embedding of [core/converters/document_converter.py]
    (class [DocumentConverter]) and [core/converters/main_converter.py]
    (classes [ConversionJob] and [MainConverter]), with the engines under
    [core/engines/] kept as black boxes behind their [convert] contract.

    Conventions of the embedding:
    - Python [str] is [string]; [str.lower]/[str.upper] act on the ASCII
      letters, which is what they do on the extension tokens of the tables.
    - The progress values [current_progress + p * progress_step / 100] are
      Python floats; they are taken here as exact rationals ([Q]).
    - A callback is either absent ([None]) or a sink that records what it is
      given and returns normally; what it was given is kept as a list of
      events, oldest first.
    - Everything outside the two classes (file system, [pathlib],
      [filetype], the three engines) is gathered in a [World].
    - The [print] calls are left out, and so is
      [_supported_formats_cache], which only memoises a constant. *)

From Stdlib Require Import String Ascii List ZArith QArith Bool Lia Lqa Sorted.
From Stdlib Require Import DecimalString.
Import ListNotations.
Open Scope string_scope.

(** ** Strings *)

Definition lower_ascii (c : ascii) : ascii :=
  let n := nat_of_ascii c in
  if ((65 <=? n) && (n <=? 90))%nat then ascii_of_nat (n + 32) else c.

Definition upper_ascii (c : ascii) : ascii :=
  let n := nat_of_ascii c in
  if ((97 <=? n) && (n <=? 122))%nat then ascii_of_nat (n - 32) else c.

Fixpoint lower (s : string) : string :=
  match s with
  | EmptyString => EmptyString
  | String c s' => String (lower_ascii c) (lower s')
  end.

Fixpoint upper (s : string) : string :=
  match s with
  | EmptyString => EmptyString
  | String c s' => String (upper_ascii c) (upper s')
  end.

(** [s.lstrip('.')] *)
Fixpoint lstrip_dot (s : string) : string :=
  match s with
  | String "."%char s' => lstrip_dot s'
  | _ => s
  end.

(** [x in l] for a list of strings *)
Definition str_in (x : string) (l : list string) : bool :=
  existsb (String.eqb x) l.

(** [sep.join(l)] *)
Fixpoint join (sep : string) (l : list string) : string :=
  match l with
  | [] => EmptyString
  | [x] => x
  | x :: rest => x ++ sep ++ join sep rest
  end.

(** [sub in s] for strings *)
Definition contains (sub s : string) : bool :=
  match String.index 0 sub s with
  | Some _ => true
  | None => false
  end.

(** [str(n)] for a non-negative integer *)
Definition str_of_nat (n : nat) : string :=
  NilEmpty.string_of_uint (Nat.to_uint n).

(** ** The engines and the world around the converters *)

Inductive Engine := OnlyOfficeEngine | LibreOfficeEngine | FallbackEngine.

Definition Engine_eqb (a b : Engine) : bool :=
  match a, b with
  | OnlyOfficeEngine, OnlyOfficeEngine => true
  | LibreOfficeEngine, LibreOfficeEngine => true
  | FallbackEngine, FallbackEngine => true
  | _, _ => false
  end.

(** [engine.__class__.__name__.replace('Engine', '')] *)
Definition engine_name (e : Engine) : string :=
  match e with
  | OnlyOfficeEngine => "OnlyOffice"
  | LibreOfficeEngine => "LibreOffice"
  | FallbackEngine => "Fallback"
  end.

(** The two call shapes of [DocumentConverter.convert]: the fallback engine
    takes the two formats, the office engines the target and the quality. *)
Inductive EngineCall :=
| FallbackCall (input_path output_path input_format output_format : string)
| StandardCall (e : Engine) (input_path output_path target_format quality : string).

Definition engine_of (c : EngineCall) : Engine :=
  match c with
  | FallbackCall _ _ _ _ => FallbackEngine
  | StandardCall e _ _ _ _ => e
  end.

(** What one [engine.convert] call did: it returned [(success, message)] or
    raised an exception whose [str(e)] is [err]. *)
Inductive Outcome :=
| Returns (success : bool) (message : string)
| Raises (err : string).

Definition succeeded (o : Outcome) : bool :=
  match o with
  | Returns true _ => true
  | _ => false
  end.

(** One engine run: the [(percent, message)] pairs it gave to its progress
    callback, in order, how it ended, and the environment it left. *)
Record Attempt (E : Type) := mkAttempt {
  emitted : list (Q * string);
  outcome : Outcome;
  env_after : E
}.
Arguments mkAttempt {E} _ _ _.
Arguments emitted {E} _.
Arguments outcome {E} _.
Arguments env_after {E} _.

(** [filetype.guess(path)]: raises, finds nothing, or gives a MIME type. *)
Inductive Guess := GuessRaises | GuessNone | GuessMime (mime : string).

Record World := mkWorld {
  env : Type;                                  (* file system and services *)
  path_exists : env -> string -> bool;         (* os.path.exists *)
  makedirs : env -> string -> option string * env;
                                               (* os.makedirs(d, exist_ok=True):
                                                  str(e) if it raised, and the
                                                  environment it left *)
  path_suffix : string -> string;              (* Path(p).suffix *)
  path_name : string -> string;                (* Path(p).name *)
  path_stem : string -> string;                (* Path(p).stem *)
  path_join : string -> string -> string;      (* os.path.join *)
  filetype_guess : env -> string -> Guess;
  engine_available : env -> Engine -> bool;    (* engine.is_available() *)
  engine_convert : env -> EngineCall -> Attempt env
}.

(** ** The engines' own static capability checks *)

Module OnlyOffice.

Definition supported_input_formats : list string :=
  ["txt"; "docx"; "doc"; "odt"; "rtf"; "xlsx"; "xls"; "ods"; "pptx"; "ppt"; "odp"].

Definition supported_output_formats : list string :=
  ["pdf"; "docx"; "odt"; "rtf"; "txt"; "html"; "xlsx"; "ods"; "pptx"; "odp"].

Definition can_convert (input_format output_format : string) : bool :=
  str_in (lower input_format) supported_input_formats
  && str_in (lower output_format) supported_output_formats.

End OnlyOffice.

Module Fallback.

(** the keys of [conversion_matrix] *)
Definition conversion_matrix : list (string * string) :=
  [("pdf", "txt"); ("pdf", "docx"); ("docx", "txt"); ("docx", "pdf");
   ("txt", "pdf"); ("txt", "docx"); ("rtf", "txt"); ("rtf", "docx")].

Definition can_convert (input_format output_format : string) : bool :=
  existsb (fun k => String.eqb (lower input_format) (fst k)
                    && String.eqb (lower output_format) (snd k))
          conversion_matrix.

End Fallback.

(** [engine.can_convert(i, o)] where the engine class has that method;
    [LibreOfficeEngine] does not define one. *)
Definition engine_can_convert (e : Engine) (i o : string) : option bool :=
  match e with
  | OnlyOfficeEngine => Some (OnlyOffice.can_convert i o)
  | LibreOfficeEngine => None
  | FallbackEngine => Some (Fallback.can_convert i o)
  end.

(** ** [DocumentConverter] *)

Module DocumentConverter.

(** [self.supported_formats] *)
Definition supported_input : list string :=
  ["pdf"; "docx"; "doc"; "odt"; "rtf"; "txt"; "xlsx"; "xls"; "ods"; "pptx"; "ppt"; "odp"].

Definition supported_output : list string :=
  ["pdf"; "docx"; "odt"; "rtf"; "txt"; "xlsx"; "ods"; "pptx"; "odp"; "html"].

(** [self.engine_capabilities[name]] as [(input, output)] *)
Definition engine_capabilities (e : Engine) : list string * list string :=
  match e with
  | OnlyOfficeEngine =>
      (["txt"; "docx"; "doc"; "odt"; "rtf"; "xlsx"; "xls"; "ods"; "pptx"; "ppt"; "odp"],
       ["pdf"; "docx"; "odt"; "rtf"; "txt"; "html"; "xlsx"; "ods"; "pptx"; "odp"])
  | LibreOfficeEngine =>
      (["docx"; "doc"; "odt"; "rtf"; "txt"; "xlsx"; "xls"; "ods"; "pptx"; "ppt"; "odp"],
       ["pdf"; "docx"; "odt"; "rtf"; "txt"; "xlsx"; "ods"; "pptx"; "odp"; "html"])
  | FallbackEngine =>
      (["pdf"; "docx"; "txt"; "rtf"], ["txt"; "docx"; "pdf"; "html"])
  end.

(** The one field of the object that depends on how it was built. *)
Record t := mk {
  conversion_methods : list ((string * string) * list Engine)
}.

(** [__init__]: the two office engines are probed once, here. *)
Definition init (W : World) (s : env W) : t :=
  let available_engines :=
    ((if engine_available W s OnlyOfficeEngine then [OnlyOfficeEngine] else [])
     ++ (if engine_available W s LibreOfficeEngine then [LibreOfficeEngine] else []))%list in
  {| conversion_methods :=
       [ (("txt", "pdf"), available_engines);
         (("docx", "pdf"), available_engines);
         (("doc", "pdf"), available_engines);
         (("odt", "pdf"), available_engines);
         (("rtf", "pdf"), available_engines);
         (("xlsx", "pdf"), available_engines);
         (("xls", "pdf"), available_engines);
         (("ods", "pdf"), available_engines);
         (("pptx", "pdf"), available_engines);
         (("ppt", "pdf"), available_engines);
         (("odp", "pdf"), available_engines);
         (("pdf", "docx"), [FallbackEngine]);
         (("pdf", "txt"), [FallbackEngine]);
         (("docx", "txt"), (available_engines ++ [FallbackEngine])%list);
         (("txt", "docx"), (available_engines ++ [FallbackEngine])%list) ] |}.

(** [d.get(key)] on a dict keyed by pairs of strings *)
Fixpoint dict_get {V : Type} (key : string * string)
         (d : list ((string * string) * V)) : option V :=
  match d with
  | [] => None
  | (k, v) :: d' =>
      if String.eqb (fst key) (fst k) && String.eqb (snd key) (snd k)
      then Some v else dict_get key d'
  end.

(** [Path(file_path).suffix.lower().lstrip('.')] *)
Definition extension (W : World) (file_path : string) : string :=
  lstrip_dot (lower (path_suffix W file_path)).

Definition is_supported_input (W : World) (file_path : string) : bool :=
  str_in (extension W file_path) supported_input.

Definition is_supported_output (format_name : string) : bool :=
  str_in (lower format_name) supported_output.

Definition can_convert (input_format output_format : string) : bool :=
  str_in (lower input_format) supported_input
  && str_in (lower output_format) supported_output.

Definition can_use (e : Engine) (input_ext target_format : string) : bool :=
  str_in input_ext (fst (engine_capabilities e))
  && str_in target_format (snd (engine_capabilities e)).

Definition _can_use_onlyoffice := can_use OnlyOfficeEngine.
Definition _can_use_libreoffice := can_use LibreOfficeEngine.
Definition _can_use_fallback := can_use FallbackEngine.

(** What the progress callback of [convert] was given, and which engine
    calls were made (each logged, when it ends, with how it ended). *)
Inductive Event :=
| Progress (percent : Q) (message : string)
| Attempted (call : EngineCall) (result : Outcome).

(** [if progress_callback: progress_callback(percent, message)] *)
Definition report (cb : bool) (percent : Q) (message : string) : list Event :=
  if cb then [Progress percent message] else [].

(** [current_progress + p * progress_step / 100] *)
Definition scaled (current_progress progress_step : Z) (p : Q) : Q :=
  inject_Z current_progress + p * inject_Z progress_step / 100.

(** The lines from [conversion_key = ...] to the second [if not
    engines_to_try]: the matrix entry, or, when there is none or it is
    empty, the list inferred from [engine_capabilities]. *)
Definition engines_to_try (dc : t) (input_ext target_format : string) : list Engine :=
  match dict_get (input_ext, target_format) (conversion_methods dc) with
  | Some (e :: l) => e :: l
  | _ =>
      if _can_use_onlyoffice input_ext target_format
      then [OnlyOfficeEngine; LibreOfficeEngine]
      else if _can_use_libreoffice input_ext target_format
      then [LibreOfficeEngine]
      else if _can_use_fallback input_ext target_format
      then [FallbackEngine]
      else []
  end.

Definition engine_call (engine : Engine)
           (input_path output_path input_ext target_format quality : string) : EngineCall :=
  if Engine_eqb engine FallbackEngine
  then FallbackCall input_path output_path input_ext target_format
  else StandardCall engine input_path output_path target_format quality.

(** The [for i, engine in enumerate(engines_to_try)] loop, entered at index
    [i] with the engines still to try; [total] is [len(engines_to_try)]. *)
Fixpoint try_engines (W : World) (cb : bool)
         (input_path output_path input_ext target_format quality : string)
         (progress_step : Z) (total : nat)
         (i : nat) (current_progress : Z) (last_error : string)
         (s : env W) (engines : list Engine)
  : (bool * string) * list Event * env W :=
  match engines with
  | [] =>
      ((false, "Falha em todos os métodos de conversão. Último erro: " ++ last_error),
       [], s)
  | engine :: rest =>
      let name := engine_name engine in
      let call := engine_call engine input_path output_path input_ext target_format quality in
      let a := engine_convert W s call in
      let ev :=
        (report cb (inject_Z current_progress) ("Tentando conversão com " ++ name ++ "...")
         ++ flat_map (fun pm => report cb (scaled current_progress progress_step (fst pm)) (snd pm))
                     (emitted a)
         ++ [Attempted call (outcome a)])%list in
      let not_last := (Z.of_nat i <? Z.of_nat total - 1)%Z in
      let continue (last_error' : string) (note : string) :=
        let '(r, evs, s') :=
          try_engines W cb input_path output_path input_ext target_format quality
                      progress_step total (S i) (current_progress + progress_step)%Z
                      last_error' (env_after a) rest in
        (r,
         (ev ++ (if not_last
                 then report cb (inject_Z (current_progress + progress_step)) note
                 else [])
             ++ evs)%list,
         s') in
      match outcome a with
      | Returns true message =>
          ((true, "Documento convertido com sucesso usando " ++ name ++ ": " ++ message),
           (ev ++ report cb 100 ("Conversão concluída com " ++ name ++ "!"))%list,
           env_after a)
      | Returns false message =>
          continue message (name ++ " falhou, tentando próximo método...")
      | Raises e =>
          continue ("Erro no " ++ name ++ ": " ++ e)
                   ("Erro no " ++ name ++ ", tentando próximo método...")
      end
  end.

(** [convert(input_path, output_path, target_format, quality,
    progress_callback)] run in environment [s]; [cb] tells whether a
    progress callback was passed. *)
Definition convert (W : World) (dc : t) (s : env W)
           (input_path output_path target_format quality : string) (cb : bool)
  : (bool * string) * list Event * env W :=
  if negb (is_supported_input W input_path) then
    ((false, "Formato de entrada não suportado: " ++ path_suffix W input_path), [], s)
  else if negb (is_supported_output target_format) then
    ((false, "Formato de saída não suportado: " ++ target_format), [], s)
  else if negb (path_exists W s input_path) then
    ((false, "Arquivo não encontrado: " ++ input_path), [], s)
  else
    let input_ext := extension W input_path in
    let started := report cb 10 "Iniciando conversão de documento..." in
    let engines := engines_to_try dc input_ext target_format in
    match engines with
    | [] =>
        ((false, "Conversão de " ++ input_ext ++ " para " ++ target_format
                   ++ " não suportada pelos engines disponíveis"),
         started, s)
    | _ =>
        let progress_step := (80 / Z.of_nat (length engines))%Z in
        let '(r, evs, s') :=
          try_engines W cb input_path output_path input_ext target_format quality
                      progress_step (length engines) 0 20 EmptyString s engines in
        (r, (started ++ evs)%list, s')
    end.

(** The engine calls of a run, in order. *)
Fixpoint attempts (evs : list Event) : list (EngineCall * Outcome) :=
  match evs with
  | [] => []
  | Attempted c o :: evs' => (c, o) :: attempts evs'
  | Progress _ _ :: evs' => attempts evs'
  end.

(** The percentages given to the progress callback, in order. *)
Fixpoint percents (evs : list Event) : list Q :=
  match evs with
  | [] => []
  | Progress p _ :: evs' => p :: percents evs'
  | Attempted _ _ :: evs' => percents evs'
  end.

(** The engines of a list of calls. *)
Definition engines_of (atts : list (EngineCall * Outcome)) : list Engine :=
  map (fun a => engine_of (fst a)) atts.

(** What [convert] keeps in [last_error] after a call that did not succeed:
    the returned message, or [f"Erro no {engine_name}: {str(e)}"]. *)
Definition error_of (a : EngineCall * Outcome) : string :=
  match snd a with
  | Returns _ message => message
  | Raises e => "Erro no " ++ engine_name (engine_of (fst a)) ++ ": " ++ e
  end.

(** The contract an engine has on its progress reports: non-decreasing
    percentages between 0 and 100. *)
Definition reports_in_order (W : World) : Prop :=
  forall s call,
    StronglySorted Qle (map fst (emitted (engine_convert W s call)))
    /\ Forall (fun p => 0 <= p /\ p <= 100) (map fst (emitted (engine_convert W s call))).

(** An engine run that does not succeed stays below 100. *)
Definition no_100_on_failure (W : World) : Prop :=
  forall s call,
    succeeded (outcome (engine_convert W s call)) = false ->
    Forall (fun p => p < 100) (map fst (emitted (engine_convert W s call))).

(** An engine call that did not return success. *)
Definition failed_attempt (a : EngineCall * Outcome) : Prop :=
  succeeded (snd a) = false.

(** [d.get(key)] on a dict keyed by strings *)
Fixpoint str_get {V : Type} (key : string) (d : list (string * V)) : option V :=
  match d with
  | [] => None
  | (k, v) :: d' => if String.eqb key k then Some v else str_get key d'
  end.

(** [type_mapping] of [_get_document_type] *)
Definition type_mapping : list (string * string) :=
  [ ("pdf", "document"); ("docx", "word_document"); ("doc", "word_document");
    ("odt", "writer_document"); ("rtf", "rich_text"); ("txt", "plain_text");
    ("xlsx", "spreadsheet"); ("xls", "spreadsheet"); ("ods", "calc_spreadsheet");
    ("pptx", "presentation"); ("ppt", "presentation"); ("odp", "impress_presentation") ].

Definition _get_document_type (extension : string) : string :=
  match str_get extension type_mapping with
  | Some t => t
  | None => "unknown"
  end.

(** One entry of the list [get_conversion_strategy] returns. *)
Record Strategy := mkStrategy {
  strategy_engine : string;
  strategy_quality : string;
  strategy_description : string
}.

(** The [if engine_name == ...: strategies.append({...})] chain *)
Definition strategy_entry (engine_name : string) : list Strategy :=
  if String.eqb engine_name "onlyoffice" then
    [mkStrategy "onlyoffice" "high"
                "Conversão de alta qualidade com OnlyOffice DocumentBuilder"]
  else if String.eqb engine_name "libreoffice" then
    [mkStrategy "libreoffice" "high" "Conversão de alta fidelidade com LibreOffice"]
  else if String.eqb engine_name "fallback" then
    [mkStrategy "fallback" "medium" "Conversão básica com bibliotecas Python"]
  else [].

Definition get_conversion_strategy (dc : t) (input_ext target_format : string)
  : list Strategy :=
  match dict_get (input_ext, target_format) (conversion_methods dc) with
  | Some engines_list =>
      flat_map (fun engine => strategy_entry (lower (engine_name engine))) engines_list
  | None =>
      ((if _can_use_onlyoffice input_ext target_format
        then strategy_entry "onlyoffice" else [])
       ++ (if _can_use_libreoffice input_ext target_format
           then strategy_entry "libreoffice" else [])
       ++ (if _can_use_fallback input_ext target_format
           then strategy_entry "fallback" else []))%list
  end.

(** The rank of an engine in the order the lists of [__init__] and of
    [convert] are written in: OnlyOffice, LibreOffice, fallback. *)
Definition priority (e : Engine) : nat :=
  match e with
  | OnlyOfficeEngine => 0
  | LibreOfficeEngine => 1
  | FallbackEngine => 2
  end.

End DocumentConverter.

(** ** [ConversionJob] and [MainConverter] *)

Module MainConverter.

Record ConversionJob := mkJob {
  input_path : string;
  output_path : string;
  target_format : string;
  quality : string;
  status : string;            (* pending, processing, completed, failed *)
  progress : Z;
  error_message : string
}.

(** [ConversionJob.__init__] *)
Definition new_job (input_path output_path target_format quality : string) : ConversionJob :=
  mkJob input_path output_path target_format quality "pending" 0 EmptyString.

(** What the status callback and the overall progress callback were given,
    and the engine calls made on behalf of the jobs. *)
Inductive Event :=
| Status (message : string)
| OverallProgress (percent : Z) (message : string)
| EngineAttempt (call : EngineCall) (result : Outcome).

(** The object. [progress_callback] and [status_callback] tell whether the
    callback is set. [log] is not a field of the Python object: it records
    the events the object caused, oldest first. *)
Record t := mk {
  jobs : list ConversionJob;
  current_job_index : nat;
  is_converting : bool;
  progress_callback : bool;
  status_callback : bool;
  document_converter : DocumentConverter.t;
  log : list Event
}.

Definition with_jobs (self : t) (js : list ConversionJob) : t :=
  mk js (current_job_index self) (is_converting self) (progress_callback self)
     (status_callback self) (document_converter self) (log self).

Definition with_index (self : t) (i : nat) : t :=
  mk (jobs self) i (is_converting self) (progress_callback self)
     (status_callback self) (document_converter self) (log self).

Definition with_converting (self : t) (b : bool) : t :=
  mk (jobs self) (current_job_index self) b (progress_callback self)
     (status_callback self) (document_converter self) (log self).

Definition emit (self : t) (evs : list Event) : t :=
  mk (jobs self) (current_job_index self) (is_converting self) (progress_callback self)
     (status_callback self) (document_converter self) (log self ++ evs)%list.

(** [if self.status_callback: self.status_callback(message)] *)
Definition say (self : t) (message : string) : t :=
  if status_callback self then emit self [Status message] else self.

(** [if self.progress_callback: self.progress_callback(percent, message)] *)
Definition tell_progress (self : t) (percent : Z) (message : string) : t :=
  if progress_callback self then emit self [OverallProgress percent message] else self.

(** [__init__] *)
Definition init (W : World) (s : env W) : t :=
  mk [] 0 false false false (DocumentConverter.init W s) [].

Definition set_progress_callback (self : t) : t :=
  mk (jobs self) (current_job_index self) (is_converting self) true
     (status_callback self) (document_converter self) (log self).

Definition set_status_callback (self : t) : t :=
  mk (jobs self) (current_job_index self) (is_converting self) (progress_callback self)
     true (document_converter self) (log self).

(** [self.extension_mapping] *)
Definition extension_mapping : list (string * string) :=
  [ ("mp4", "video"); ("avi", "video"); ("mkv", "video"); ("mov", "video");
    ("wmv", "video"); ("flv", "video"); ("webm", "video"); ("m4v", "video");
    ("mpg", "video"); ("mpeg", "video"); ("3gp", "video"); ("ogv", "video");
    ("mp3", "audio"); ("wav", "audio"); ("flac", "audio"); ("aac", "audio");
    ("ogg", "audio"); ("m4a", "audio"); ("wma", "audio"); ("opus", "audio");
    ("aiff", "audio"); ("au", "audio"); ("ra", "audio");
    ("jpg", "image"); ("jpeg", "image"); ("png", "image"); ("gif", "image");
    ("bmp", "image"); ("tiff", "image"); ("tif", "image"); ("webp", "image");
    ("ico", "image"); ("svg", "image"); ("psd", "image"); ("raw", "image");
    ("pdf", "document"); ("doc", "document"); ("docx", "document");
    ("odt", "document"); ("rtf", "document"); ("txt", "document");
    ("html", "document"); ("htm", "document"); ("xls", "document");
    ("xlsx", "document"); ("ods", "document"); ("csv", "document");
    ("ppt", "document"); ("pptx", "document"); ("odp", "document") ].

Fixpoint lookup {V : Type} (key : string) (d : list (string * V)) : option V :=
  match d with
  | [] => None
  | (k, v) :: d' => if String.eqb key k then Some v else lookup key d'
  end.

Definition detect_file_type (W : World) (s : env W) (file_path : string) : string :=
  let extension := DocumentConverter.extension W file_path in
  match lookup extension extension_mapping with
  | Some file_type => file_type
  | None =>
      match filetype_guess W s file_path with
      | GuessMime mime_type =>
          if String.prefix "video/" mime_type then "video"
          else if String.prefix "audio/" mime_type then "audio"
          else if String.prefix "image/" mime_type then "image"
          else if String.prefix "application/" mime_type
                  && existsb (fun doc_type => contains doc_type mime_type)
                             ["pdf"; "word"; "document"; "text"]
          then "document"
          else "unknown"
      | GuessNone => "unknown"
      | GuessRaises => "unknown"          (* except Exception *)
      end
  end.

Inductive Converter :=
  VideoConverter | AudioConverter | ImageConverter | DocumentConverter.

Definition converter_class_name (c : Converter) : string :=
  match c with
  | VideoConverter => "VideoConverter"
  | AudioConverter => "AudioConverter"
  | ImageConverter => "ImageConverter"
  | DocumentConverter => "DocumentConverter"
  end.

Definition get_converter_for_type (file_type : string) : option Converter :=
  lookup file_type
         [ ("video", VideoConverter); ("audio", AudioConverter);
           ("image", ImageConverter); ("document", DocumentConverter) ].

(** [get_supported_formats().values()]: per category, the input and the
    output lists of the four converters (video, audio, image, document). *)
Definition get_supported_formats : list (list string * list string) :=
  [ (["mp4"; "avi"; "mkv"; "mov"; "wmv"; "flv"; "webm"; "m4v"; "3gp"; "ogv"],
     ["mp4"; "avi"; "mkv"; "mov"; "wmv"; "flv"; "webm"]);
    (["mp3"; "wav"; "flac"; "aac"; "ogg"; "m4a"; "wma"; "opus"; "aiff"; "au"],
     ["mp3"; "wav"; "flac"; "aac"; "ogg"; "m4a"; "opus"]);
    (["jpg"; "jpeg"; "png"; "gif"; "bmp"; "tiff"; "tif"; "webp"; "ico"; "ppm"; "pgm"; "pbm"],
     ["jpg"; "jpeg"; "png"; "gif"; "bmp"; "tiff"; "webp"; "ico"]);
    (DocumentConverter.supported_input, DocumentConverter.supported_output) ].

Definition is_format_supported (input_format output_format : string) : bool :=
  if String.eqb (lower input_format) (lower output_format) then false
  else
    existsb (fun category =>
               str_in (lower input_format) (map lower (fst category))
               && str_in (lower output_format) (map lower (snd category)))
            get_supported_formats.

(** Returns the answer and the object; nothing in the body can raise in
    this embedding, so the [except] branch is not reached. *)
Definition add_conversion_job (W : World) (self : t) (s : env W)
           (input_path output_dir target_format quality : string) : bool * t :=
  if negb (path_exists W s input_path) then (false, self)
  else
    let file_type := detect_file_type W s input_path in
    if String.eqb file_type "unknown" then (false, self)
    else
      let input_extension := DocumentConverter.extension W input_path in
      if negb (is_format_supported input_extension target_format) then (false, self)
      else
        let output_filename := path_stem W input_path ++ "." ++ lower target_format in
        let output_path := path_join W output_dir output_filename in
        let job := new_job input_path output_path target_format quality in
        (true, with_jobs self (jobs self ++ [job])%list).

Definition clear_jobs (self : t) : t :=
  if negb (is_converting self) then with_index (with_jobs self []) 0 else self.

Definition get_job_count (self : t) : nat := length (jobs self).

Definition get_pending_jobs (self : t) : list ConversionJob :=
  filter (fun job => String.eqb (status job) "pending") (jobs self).

(** The [for file_path in file_paths] loop of [validate_conversion_setup]:
    [(convertible_files, unsupported_files, same_format_files)]. *)
Fixpoint classify (W : World) (s : env W) (target_format : string)
         (file_paths : list string) : list string * list string * list string :=
  match file_paths with
  | [] => ([], [], [])
  | file_path :: rest =>
      let '(convertible, unsupported, same_format) := classify W s target_format rest in
      let file_type := detect_file_type W s file_path in
      let input_extension := DocumentConverter.extension W file_path in
      if String.eqb file_type "unknown" then
        (convertible, path_name W file_path :: unsupported, same_format)
      else if String.eqb (lower input_extension) (lower target_format) then
        (convertible, unsupported, path_name W file_path :: same_format)
      else if is_format_supported input_extension target_format then
        (file_path :: convertible, unsupported, same_format)
      else
        (convertible,
         (path_name W file_path ++ " (" ++ input_extension ++ " → " ++ target_format ++ ")")
           :: unsupported,
         same_format)
  end.

(** One entry of [warnings] *)
Definition warning (what : string) (names : list string) : string :=
  str_of_nat (length names) ++ what ++ join ", " (firstn 2 names)
  ++ (if (2 <? length names)%nat
      then " e mais " ++ str_of_nat (length names - 2) ++ " arquivo(s)"
      else EmptyString).

Definition validate_conversion_setup (W : World) (s : env W)
           (file_paths : list string) (output_dir target_format : string)
  : (bool * string) * env W :=
  match file_paths with
  | [] => ((false, "Nenhum arquivo selecionado para conversão"), s)
  | _ =>
      if String.eqb output_dir EmptyString
         || String.eqb output_dir "Selecione uma pasta de destino"
      then ((false, "Selecione uma pasta de destino"), s)
      else
        match makedirs W s output_dir with
        | (Some e, s1) =>
            ((false, "Não foi possível criar/acessar a pasta de destino: " ++ e), s1)
        | (None, s1) =>
            let missing_files := filter (fun f => negb (path_exists W s1 f)) file_paths in
            match missing_files with
            | _ :: _ =>
                ((false, "Arquivos não encontrados: " ++ join ", " missing_files), s1)
            | [] =>
                let '(convertible_files, unsupported_files, same_format_files) :=
                  classify W s1 target_format file_paths in
                match convertible_files, same_format_files, unsupported_files with
                | [], _ :: _, _ =>
                    ((false,
                      "Não é possível converter arquivos para o mesmo formato. Arquivos já em "
                        ++ upper target_format ++ ": " ++ join ", " same_format_files), s1)
                | [], [], _ :: _ =>
                    ((false,
                      "Nenhum arquivo pode ser convertido para " ++ upper target_format
                        ++ ". Arquivos não suportados: " ++ join ", " unsupported_files), s1)
                | [], [], [] =>
                    ((false, "Formato de saída '" ++ target_format ++ "' não é suportado"), s1)
                | _ :: _, _, _ =>
                    let warnings :=
                      ((match same_format_files with
                        | [] => []
                        | _ => [warning (" arquivo(s) já estão em " ++ upper target_format
                                           ++ " e serão ignorados: ") same_format_files]
                        end)
                       ++ (match unsupported_files with
                           | [] => []
                           | _ => [warning " arquivo(s) não podem ser convertidos e serão ignorados: "
                                           unsupported_files]
                           end))%list in
                    match warnings with
                    | [] => ((true, "Configuração válida"), s1)
                    | _ => ((true, "Aviso: " ++ join "; " warnings), s1)
                    end
                end
            end
        end
  end.

(** The [for file_path in file_paths] loop of [start_conversion] *)
Fixpoint add_all (W : World) (self : t) (s : env W)
         (file_paths : list string) (output_dir target_format quality : string) : t :=
  match file_paths with
  | [] => self
  | file_path :: rest =>
      add_all W (snd (add_conversion_job W self s file_path output_dir target_format quality))
              s rest output_dir target_format quality
  end.

Definition start_conversion (W : World) (self : t) (s : env W)
           (file_paths : list string) (output_dir target_format quality : string)
  : bool * t * env W :=
  if is_converting self then (false, self, s)
  else
    let '((is_valid, message), s1) :=
      validate_conversion_setup W s file_paths output_dir target_format in
    if negb is_valid then (false, say self ("Erro: " ++ message), s1)
    else
      let self1 := clear_jobs self in
      let self2 := add_all W self1 s1 file_paths output_dir target_format quality in
      match jobs self2 with
      | [] => (false, say self2 "Nenhum trabalho de conversão foi criado", s1)
      | _ =>
          let self3 := with_index (with_converting self2 true) 0 in
          (true,
           say self3 ("Iniciando conversão de " ++ str_of_nat (length (jobs self3))
                        ++ " arquivo(s)..."),
           s1)
      end.

(** [int(x)] on a rational: truncation towards zero *)
Definition int_of_Q (x : Q) : Z := Z.quot (Qnum x) (Zpos (Qden x)).

(** [jobs[i]] replaced by [f jobs[i]] (the job objects are mutated in place) *)
Fixpoint update_job (i : nat) (f : ConversionJob -> ConversionJob)
         (js : list ConversionJob) : list ConversionJob :=
  match js, i with
  | [], _ => []
  | j :: js', O => f j :: js'
  | j :: js', S i' => j :: update_job i' f js'
  end.

Definition set_status (st : string) (j : ConversionJob) : ConversionJob :=
  mkJob (input_path j) (output_path j) (target_format j) (quality j)
        st (progress j) (error_message j).

Definition set_progress (p : Z) (j : ConversionJob) : ConversionJob :=
  mkJob (input_path j) (output_path j) (target_format j) (quality j)
        (status j) p (error_message j).

Definition set_error_message (m : string) (j : ConversionJob) : ConversionJob :=
  mkJob (input_path j) (output_path j) (target_format j) (quality j)
        (status j) (progress j) m.

(** The nested [progress_update(progress, status)] of [process_next_job],
    as the events it causes. *)
Definition progress_update (self : t) (progress : Q) (status : string) : list Event :=
  if progress_callback self then
    let job_weight := 100 / inject_Z (Z.of_nat (length (jobs self))) in
    let overall_progress :=
      int_of_Q (inject_Z (Z.of_nat (current_job_index self)) * job_weight
                + progress * job_weight / 100) in
    [OverallProgress overall_progress status]
  else [].

Definition relay (self : t) (ev : DocumentConverter.Event) : list Event :=
  match ev with
  | DocumentConverter.Progress p m => progress_update self p m
  | DocumentConverter.Attempted c o => [EngineAttempt c o]
  end.

Definition count_status (st : string) (js : list ConversionJob) : nat :=
  length (filter (fun j => String.eqb (status j) st) js).

Definition finish_conversion (self : t) : t :=
  let self1 := with_converting self false in
  let completed := count_status "completed" (jobs self1) in
  let failed := count_status "failed" (jobs self1) in
  let self2 :=
    if (failed =? 0)%nat
    then say self1 ("Conversão concluída! " ++ str_of_nat completed
                      ++ " arquivo(s) convertido(s) com sucesso.")
    else say self1 ("Conversão finalizada: " ++ str_of_nat completed ++ " sucesso(s), "
                      ++ str_of_nat failed ++ " falha(s).") in
  tell_progress self2 100 "Conversão finalizada".

(** The [try] block of [process_next_job] for the current job:
    [(success, message)], the events of the conversion and the environment
    it left. The video, audio and image converter classes define no
    [can_convert], so the call on them raises [AttributeError], which the
    [except] turns into a failure. *)
Definition run_current_job (W : World) (self : t) (s : env W) (current_job : ConversionJob)
  : (bool * string) * list Event * env W :=
  let file_type := detect_file_type W s (input_path current_job) in
  if String.eqb file_type "unknown" then
    ((false, "Tipo de arquivo não suportado: " ++ path_name W (input_path current_job)), [], s)
  else
    match get_converter_for_type file_type with
    | None => ((false, "Conversor não encontrado para tipo: " ++ file_type), [], s)
    | Some DocumentConverter =>
        let input_extension := DocumentConverter.extension W (input_path current_job) in
        if negb (DocumentConverter.can_convert input_extension (target_format current_job))
        then
          ((false, "Conversão " ++ input_extension ++ " → " ++ target_format current_job
                     ++ " não suportada pelo conversor " ++ file_type), [], s)
        else
          let '(r, evs, s') :=
            DocumentConverter.convert W (document_converter self) s
              (input_path current_job) (output_path current_job)
              (target_format current_job) (quality current_job) true in
          (r, flat_map (relay self) evs, s')
    | Some converter =>
        ((false, "Erro durante a conversão: '" ++ converter_class_name converter
                   ++ "' object has no attribute 'can_convert'"), [], s)
    end.

Definition process_next_job (W : World) (self : t) (s : env W)
  : (bool * bool) * t * env W :=
  if negb (is_converting self) || (length (jobs self) <=? current_job_index self)%nat
  then ((false, false), self, s)
  else
    match nth_error (jobs self) (current_job_index self) with
    | None => ((false, false), self, s)
    | Some current_job =>
        let i := current_job_index self in
        let self1 := with_jobs self (update_job i (set_status "processing") (jobs self)) in
        let self2 :=
          say self1 ("Convertendo: " ++ path_name W (input_path current_job) ++ " ("
                       ++ str_of_nat (i + 1) ++ "/" ++ str_of_nat (length (jobs self1)) ++ ")") in
        let '((success, message), evs, s') := run_current_job W self2 s current_job in
        let self3 := emit self2 evs in
        let self4 :=
          with_jobs self3
            (update_job i
               (if success
                then fun j => set_progress 100 (set_status "completed" j)
                else fun j => set_error_message message (set_status "failed" j))
               (jobs self3)) in
        let overall_progress :=
          int_of_Q (inject_Z (Z.of_nat (i + 1))
                    / inject_Z (Z.of_nat (length (jobs self4))) * 100) in
        let self5 := tell_progress self4 overall_progress message in
        let self6 := with_index self5 (i + 1) in
        let has_more_jobs := (current_job_index self6 <? length (jobs self6))%nat in
        let self7 := if negb has_more_jobs then finish_conversion self6 else self6 in
        ((success, has_more_jobs), self7, s')
    end.

Definition stop_conversion (self : t) : t :=
  if is_converting self then
    tell_progress (say (with_converting self false) "Conversão interrompida pelo usuário")
                  0 "Conversão parada"
  else self.

Record Summary := mkSummary {
  total : nat;
  completed : nat;
  failed : nat;
  pending : nat;
  processing : nat;
  summary_is_converting : bool
}.

Definition get_conversion_summary (self : t) : Summary :=
  mkSummary (length (jobs self))
            (count_status "completed" (jobs self))
            (count_status "failed" (jobs self))
            (count_status "pending" (jobs self))
            (count_status "processing" (jobs self))
            (is_converting self).

(** The engine calls recorded in a log. *)
Fixpoint engine_attempts (evs : list Event) : list (EngineCall * Outcome) :=
  match evs with
  | [] => []
  | EngineAttempt c o :: evs' => (c, o) :: engine_attempts evs'
  | _ :: evs' => engine_attempts evs'
  end.

(** The operations a caller has on the object, and a run of them. *)
Inductive Op :=
| OpSetProgressCallback
| OpSetStatusCallback
| OpStart (file_paths : list string) (output_dir target_format quality : string)
| OpAdd (input_path output_dir target_format quality : string)
| OpProcess
| OpStop
| OpClear.

Definition apply_op (W : World) (op : Op) (st : t * env W) : t * env W :=
  let '(self, s) := st in
  match op with
  | OpSetProgressCallback => (set_progress_callback self, s)
  | OpSetStatusCallback => (set_status_callback self, s)
  | OpStart fs d f q =>
      let '(_, self', s') := start_conversion W self s fs d f q in (self', s')
  | OpAdd p d f q => (snd (add_conversion_job W self s p d f q), s)
  | OpProcess =>
      let '(_, self', s') := process_next_job W self s in (self', s')
  | OpStop => (stop_conversion self, s)
  | OpClear => (clear_jobs self, s)
  end.

Definition run_ops (W : World) (ops : list Op) (st : t * env W) : t * env W :=
  fold_left (fun st op => apply_op W op st) ops st.

(** The four values the comment on [ConversionJob.status] lists. *)
Definition statuses : list string := ["pending"; "processing"; "completed"; "failed"].

Definition jobs_ok (js : list ConversionJob) : Prop :=
  Forall (fun j => In (status j) statuses) js.

(** A job that is over. *)
Definition finished (j : ConversionJob) : Prop :=
  status j = "completed" \/ status j = "failed".

(** The three tests a file passes in [validate_conversion_setup] to count
    as convertible: a known type, not already in the target format (implied
    by the third test), and a supported pair. *)
Definition convertible (W : World) (s : env W) (target_format file_path : string) : bool :=
  negb (String.eqb (detect_file_type W s file_path) "unknown")
  && is_format_supported (DocumentConverter.extension W file_path) target_format.

(** The job [add_conversion_job] builds for a file. *)
Definition job_for (W : World) (output_dir target_format quality file_path : string)
  : ConversionJob :=
  new_job file_path
          (path_join W output_dir (path_stem W file_path ++ "." ++ lower target_format))
          target_format quality.

End MainConverter.

(** ** The callers in [ui/windows/main_window.py] *)

Module MainWindow.

(** The items of [output_format_combo]. *)
Definition output_format_items : list string :=
  [ "Selecione o formato...";
    "--- Áudio ---"; "MP3"; "WAV"; "AAC"; "FLAC"; "OGG";
    "--- Vídeo ---"; "MP4"; "MKV"; "AVI"; "MOV"; "WEBM";
    "--- Imagem ---"; "JPEG"; "PNG"; "GIF"; "BMP"; "TIFF"; "WEBP";
    "--- Documento ---"; "PDF"; "DOCX"; "TXT"; "ODT"; "RTF" ].

(** The test of [on_convert] that turns the chosen format down:
    [not format_text or format_text.startswith("---") or
     format_text == "Selecione o formato..."]. *)
Definition format_not_chosen (format_text : string) : bool :=
  String.eqb format_text EmptyString
  || String.prefix "---" format_text
  || String.eqb format_text "Selecione o formato...".

End MainWindow.

Module ConversionWorker.

(** What [run] emits. *)
Inductive Signal :=
| conversion_finished (success : bool) (message : string).

(** [self.should_stop] is set by [stop()], called from the window's thread,
    and never reset. [run] reads it at the head of the loop and once after
    the loop. [stop_after = Some n] says that the flag is set by the time
    [n] jobs have been processed; [None] that [stop()] is not called. The
    value read when [processed] jobs have been processed: *)
Definition should_stop (stop_after : option nat) (processed : nat) : bool :=
  match stop_after with
  | Some n => (n <=? processed)%nat
  | None => false
  end.

(** The [while self.converter.is_converting and not self.should_stop] loop,
    with a bound on the number of turns; it gives the converter, the
    environment and the number of jobs processed when the loop is left. *)
Fixpoint loop (W : World) (fuel : nat) (stop_after : option nat) (processed : nat)
         (converter : MainConverter.t) (s : env W)
  : option (MainConverter.t * env W * nat) :=
  match fuel with
  | O => None
  | S fuel' =>
      if MainConverter.is_converting converter
         && negb (should_stop stop_after processed)
      then
        let '((_, has_more), converter', s') :=
          MainConverter.process_next_job W converter s in
        if negb has_more then Some (converter', s', S processed)      (* break *)
        else loop W fuel' stop_after (S processed) converter' s'      (* msleep(100) *)
      else Some (converter, s, processed)
  end.

(** [run]: [None] only if the bound on the loop was too small. *)
Definition run (W : World) (converter : MainConverter.t) (s : env W)
           (file_paths : list string) (output_dir target_format quality : string)
           (stop_after : option nat)
  : option (list Signal * MainConverter.t * env W) :=
  let '(success, converter1, s1) :=
    MainConverter.start_conversion W converter s file_paths output_dir target_format quality in
  if negb success then
    Some ([conversion_finished false "Falha ao iniciar conversão"], converter1, s1)
  else
    match loop W (S (length (MainConverter.jobs converter1))) stop_after 0 converter1 s1 with
    | None => None
    | Some (converter2, s2, processed) =>
        if should_stop stop_after processed then
          Some ([conversion_finished false "Conversão interrompida"],
                MainConverter.stop_conversion converter2, s2)
        else
          let summary := MainConverter.get_conversion_summary converter2 in
          if (MainConverter.failed summary =? 0)%nat then
            Some ([conversion_finished true
                     ("Conversão concluída! "
                        ++ str_of_nat (MainConverter.completed summary)
                        ++ " arquivo(s) convertido(s).")],
                  converter2, s2)
          else
            Some ([conversion_finished false
                     ("Conversão finalizada com "
                        ++ str_of_nat (MainConverter.failed summary) ++ " erro(s).")],
                  converter2, s2)
    end.

End ConversionWorker.

(** ** [core/engines/ffmpeg_engine.py] and the converters that call it *)

Module Ffmpeg.

(** How [subprocess.run(command, check=True, capture_output=True, text=True,
    timeout=300)] ends: normally, or by one of the exceptions
    [run_ffmpeg_conversion] tells apart ([stderr] is [e.stderr], empty when
    it is [None] or empty; [str_e] is [str(e)]). *)
Inductive ProcResult :=
| Completed
| CalledProcessError (stderr : string) (str_e : string)
| TimeoutExpired
| FileNotFoundError
| OtherError (str_e : string).

(** What the module takes from outside, besides the [World]. *)
Record Tools (W : World) := mkTools {
  ffmpeg_path : string;        (* os.path.join(..., 'bin', 'ffmpeg.exe') *)
  dirname : string -> string;  (* os.path.dirname *)
  subprocess_run : env W -> list string -> ProcResult * env W
}.
Arguments ffmpeg_path {W} _.
Arguments dirname {W} _ _.
Arguments subprocess_run {W} _ _ _.

(** [quality_map.get(quality_preset, '23')] *)
Definition crf_value (quality_preset : string) : string :=
  if String.eqb quality_preset "Alta" then "18"
  else if String.eqb quality_preset "Média" then "23"
  else if String.eqb quality_preset "Baixa" then "28"
  else "23".

(** The options between the input and ['-y', output_path]. *)
Definition format_options (quality_preset format_type : string) : list string :=
  if String.eqb format_type "video" then
    ["-c:v"; "libx264"; "-crf"; crf_value quality_preset; "-c:a"; "aac"; "-b:a"; "128k"]
  else if String.eqb format_type "audio" then
    ["-c:a"; "libmp3lame"; "-b:a"; "192k"]
  else if String.eqb format_type "image" then
    ["-q:v"; "2"]
  else [].

(** [run_ffmpeg_conversion(input_path, output_path, quality_preset,
    format_type)]: how it ends, the commands it ran and the environment it
    left. [os.makedirs] is called before the [try], so its exception leaves
    the function. *)
Definition run_ffmpeg_conversion (W : World) (T : Tools W) (s : env W)
           (input_path output_path quality_preset format_type : string)
  : Outcome * list (list string) * env W :=
  if negb (path_exists W s (ffmpeg_path T)) then
    (Returns false ("FFmpeg não encontrado em: " ++ ffmpeg_path T), [], s)
  else if negb (path_exists W s input_path) then
    (Returns false ("Arquivo de entrada não encontrado: " ++ input_path), [], s)
  else
    let output_dir := dirname T output_path in
    let made :=
      if negb (String.eqb output_dir EmptyString) && negb (path_exists W s output_dir)
      then makedirs W s output_dir
      else (None, s) in
    match made with
    | (Some e, s1) => (Raises e, [], s1)
    | (None, s1) =>
        let command :=
          ([ffmpeg_path T; "-i"; input_path]
           ++ format_options quality_preset format_type
           ++ ["-y"; output_path])%list in
        let '(result, s2) := subprocess_run T s1 command in
        match result with
        | Completed =>
            if path_exists W s2 output_path
            then (Returns true "Conversão concluída com sucesso!", [command], s2)
            else (Returns false "Arquivo de saída não foi criado", [command], s2)
        | CalledProcessError stderr str_e =>
            (Returns false ("Erro ao converter com FFmpeg: "
                              ++ (if String.eqb stderr EmptyString then str_e else stderr)),
             [command], s2)
        | TimeoutExpired =>
            (Returns false "Conversão cancelada por timeout (5 minutos)", [command], s2)
        | FileNotFoundError =>
            (Returns false ("Executável do FFmpeg não encontrado: " ++ ffmpeg_path T),
             [command], s2)
        | OtherError str_e =>
            (Returns false ("Erro inesperado: " ++ str_e), [command], s2)
        end
    end.

(** The values the converters pass by keyword. *)
Inductive PyVal :=
| PyStr (s : string)
| PyBool (b : bool)
| PyCallable
| PyNone.

(** The parameters of [run_ffmpeg_conversion]; it has no catch-all for
    further keywords. *)
Definition parameters : list string :=
  ["input_path"; "output_path"; "quality_preset"; "format_type"].

(** The first keyword of a call that is not a parameter. *)
Fixpoint first_unexpected (kwargs : list (string * PyVal)) : option string :=
  match kwargs with
  | [] => None
  | (k, _) :: rest => if str_in k parameters then first_unexpected rest else Some k
  end.

Fixpoint keyword (name : string) (kwargs : list (string * PyVal)) : option PyVal :=
  match kwargs with
  | [] => None
  | (k, v) :: rest => if String.eqb name k then Some v else keyword name rest
  end.

(** A call of [run_ffmpeg_conversion] by keywords: Python binds the keywords
    before it runs the body, and raises [TypeError] for a keyword that is
    not a parameter or for a missing [input_path] or [output_path]. Values
    other than strings for the four parameters do not occur in this
    repository and are not given a meaning here. *)
Definition call_run_ffmpeg_conversion (W : World) (T : Tools W) (s : env W)
           (kwargs : list (string * PyVal))
  : Outcome * list (list string) * env W :=
  match first_unexpected kwargs with
  | Some k =>
      (Raises ("run_ffmpeg_conversion() got an unexpected keyword argument '" ++ k ++ "'"),
       [], s)
  | None =>
      match keyword "input_path" kwargs, keyword "output_path" kwargs with
      | Some (PyStr input_path), Some (PyStr output_path) =>
          let quality_preset :=
            match keyword "quality_preset" kwargs with
            | Some (PyStr v) => v
            | _ => "medium"
            end in
          let format_type :=
            match keyword "format_type" kwargs with
            | Some (PyStr v) => v
            | _ => "video"
            end in
          run_ffmpeg_conversion W T s input_path output_path quality_preset format_type
      | _, _ =>
          (Raises "run_ffmpeg_conversion() missing required positional arguments", [], s)
      end
  end.

(** [detect_format_type(file_path)]; [streams] is the list of the
    [codec_type] of the streams ffprobe reported, [None] when
    [get_file_info] gave nothing or no ['streams']. *)
Definition detect_format_type (W : World) (streams : option (list string))
           (file_path : string) : string :=
  match streams with
  | None =>
      let ext := lower (path_suffix W file_path) in
      if str_in ext [".mp4"; ".avi"; ".mkv"; ".mov"; ".wmv"; ".flv"; ".webm"] then "video"
      else if str_in ext [".mp3"; ".wav"; ".flac"; ".aac"; ".ogg"; ".m4a"] then "audio"
      else if str_in ext [".jpg"; ".jpeg"; ".png"; ".gif"; ".bmp"; ".tiff"; ".webp"]
      then "image"
      else "unknown"
  | Some codec_types =>
      if existsb (String.eqb "video") codec_types then "video"
      else if existsb (String.eqb "audio") codec_types then "audio"
      else "image"
  end.

End Ffmpeg.

Module VideoConverter.

Definition supported_input : list string :=
  ["mp4"; "avi"; "mkv"; "mov"; "wmv"; "flv"; "webm"; "m4v"; "3gp"; "ogv"].

Definition supported_output : list string :=
  ["mp4"; "avi"; "mkv"; "mov"; "wmv"; "flv"; "webm"].

Record Preset := mkPreset {
  video_bitrate : string;
  audio_bitrate : string;
  resolution : string;
  fps : string
}.

(** [self.quality_presets.get(quality, self.quality_presets['media'])] *)
Definition preset_for (quality : string) : Preset :=
  if String.eqb quality "baixa" then mkPreset "500k" "64k" "480p" "24"
  else if String.eqb quality "media" then mkPreset "1500k" "128k" "720p" "30"
  else if String.eqb quality "alta" then mkPreset "3000k" "192k" "1080p" "30"
  else if String.eqb quality "maxima" then mkPreset "8000k" "320k" "original" "original"
  else mkPreset "1500k" "128k" "720p" "30".

Definition is_supported_input (W : World) (file_path : string) : bool :=
  str_in (DocumentConverter.extension W file_path) supported_input.

Definition is_supported_output (format_name : string) : bool :=
  str_in (lower format_name) supported_output.

(** [convert]: the result, the commands run and the environment left. *)
Definition convert (W : World) (T : Ffmpeg.Tools W) (s : env W)
           (input_path output_path target_format quality : string) (cb : bool)
  : (bool * string) * list (list string) * env W :=
  if negb (is_supported_input W input_path) then
    ((false, "Formato de entrada não suportado: " ++ path_suffix W input_path), [], s)
  else if negb (is_supported_output target_format) then
    ((false, "Formato de saída não suportado: " ++ target_format), [], s)
  else if negb (path_exists W s input_path) then
    ((false, "Arquivo não encontrado: " ++ input_path), [], s)
  else
    let preset := preset_for quality in
    let extra_params :=
      ([("video_bitrate", Ffmpeg.PyStr (video_bitrate preset));
        ("audio_bitrate", Ffmpeg.PyStr (audio_bitrate preset))]
       ++ (if String.eqb (resolution preset) "original" then []
           else [("resolution", Ffmpeg.PyStr (resolution preset))])
       ++ (if String.eqb (fps preset) "original" then []
           else [("fps", Ffmpeg.PyStr (fps preset))]))%list in
    let '(result, commands, s') :=
      Ffmpeg.call_run_ffmpeg_conversion W T s
        ([("input_path", Ffmpeg.PyStr input_path);
          ("output_path", Ffmpeg.PyStr output_path);
          ("target_format", Ffmpeg.PyStr target_format);
          ("quality", Ffmpeg.PyStr quality);
          ("progress_callback", if cb then Ffmpeg.PyCallable else Ffmpeg.PyNone)]
         ++ extra_params)%list in
    match result with
    | Returns success message => ((success, message), commands, s')
    | Raises e => ((false, "Erro na conversão de vídeo: " ++ e), commands, s')
    end.

End VideoConverter.

Module AudioConverter.

Definition supported_input : list string :=
  ["mp3"; "wav"; "flac"; "aac"; "ogg"; "m4a"; "wma"; "opus"; "aiff"; "au"].

Definition supported_output : list string :=
  ["mp3"; "wav"; "flac"; "aac"; "ogg"; "m4a"; "opus"].

Record Preset := mkPreset {
  bitrate : string;
  sample_rate : string;
  channels : string
}.

Definition preset_for (quality : string) : Preset :=
  if String.eqb quality "baixa" then mkPreset "64k" "22050" "1"
  else if String.eqb quality "media" then mkPreset "128k" "44100" "2"
  else if String.eqb quality "alta" then mkPreset "192k" "44100" "2"
  else if String.eqb quality "maxima" then mkPreset "320k" "48000" "2"
  else mkPreset "128k" "44100" "2".

(** [self.format_configs.get(target_format, {})], as the codec it holds *)
Definition codec_for (target_format : string) : option string :=
  DocumentConverter.str_get target_format
    [ ("mp3", "libmp3lame"); ("wav", "pcm_s16le"); ("flac", "flac"); ("aac", "aac");
      ("ogg", "libvorbis"); ("m4a", "aac"); ("opus", "libopus") ].

Definition is_supported_input (W : World) (file_path : string) : bool :=
  str_in (DocumentConverter.extension W file_path) supported_input.

Definition is_supported_output (format_name : string) : bool :=
  str_in (lower format_name) supported_output.

Definition convert (W : World) (T : Ffmpeg.Tools W) (s : env W)
           (input_path output_path target_format quality : string) (cb : bool)
  : (bool * string) * list (list string) * env W :=
  if negb (is_supported_input W input_path) then
    ((false, "Formato de entrada não suportado: " ++ path_suffix W input_path), [], s)
  else if negb (is_supported_output target_format) then
    ((false, "Formato de saída não suportado: " ++ target_format), [], s)
  else if negb (path_exists W s input_path) then
    ((false, "Arquivo não encontrado: " ++ input_path), [], s)
  else
    let preset := preset_for quality in
    let extra_params :=
      ([("audio_bitrate", Ffmpeg.PyStr (bitrate preset));
        ("sample_rate", Ffmpeg.PyStr (sample_rate preset));
        ("channels", Ffmpeg.PyStr (channels preset))]
       ++ (match codec_for target_format with
           | Some codec => [("audio_codec", Ffmpeg.PyStr codec)]
           | None => []
           end))%list in
    let '(result, commands, s') :=
      Ffmpeg.call_run_ffmpeg_conversion W T s
        ([("input_path", Ffmpeg.PyStr input_path);
          ("output_path", Ffmpeg.PyStr output_path);
          ("target_format", Ffmpeg.PyStr target_format);
          ("quality", Ffmpeg.PyStr quality);
          ("progress_callback", if cb then Ffmpeg.PyCallable else Ffmpeg.PyNone)]
         ++ extra_params)%list in
    match result with
    | Returns success message => ((success, message), commands, s')
    | Raises e => ((false, "Erro na conversão de áudio: " ++ e), commands, s')
    end.

End AudioConverter.

(** ** Small concrete worlds

    Paths are plain file names; the environment is the list of the paths
    that exist. The engines are given by their availability and by what a
    call reports and returns. *)

Module Sample.

(** the part of [p] from its last dot on, if there is one *)
Fixpoint from_last_dot (p : string) : option string :=
  match p with
  | EmptyString => None
  | String c p' =>
      match from_last_dot p' with
      | Some t => Some t
      | None => if Ascii.eqb c "."%char then Some p else None
      end
  end.

Definition suffix (p : string) : string :=
  match from_last_dot p with
  | Some t => t
  | None => EmptyString
  end.

Definition stem (p : string) : string :=
  substring 0 (String.length p - String.length (suffix p)) p.

Definition output_of (c : EngineCall) : string :=
  match c with
  | FallbackCall _ o _ _ => o
  | StandardCall _ _ o _ _ => o
  end.

Definition world (available : Engine -> bool)
           (behaviour : EngineCall -> list (Q * string) * Outcome) : World :=
  {| env := list string;
     path_exists := fun fs p => str_in p fs;
     makedirs := fun fs d => (None, if str_in d fs then fs else d :: fs);
     path_suffix := suffix;
     path_name := fun p => p;
     path_stem := stem;
     path_join := fun d f => d ++ "/" ++ f;
     filetype_guess := fun _ _ => GuessNone;
     engine_available := fun _ e => available e;
     engine_convert := fun fs c =>
       let r := behaviour c in
       mkAttempt (fst r) (snd r)
                 (if succeeded (snd r) then output_of c :: fs else fs) |}.

(** every engine is installed and converts, reporting 50 then 100 *)
Definition all_good : World :=
  world (fun _ => true)
        (fun _ => ([(50, "a meio"); (100, "feito")], Returns true "ok")).

(** no engine is available, and each says so when called *)
Definition all_down : World :=
  world (fun _ => false) (fun _ => ([], Returns false "indisponível")).

(** OnlyOffice raises, LibreOffice returns a failure, the fallback converts *)
Definition only_fallback_works : World :=
  world (fun _ => true)
        (fun c => match engine_of c with
                  | OnlyOfficeEngine => ([(10, "a preparar")], Raises "servidor caiu")
                  | LibreOfficeEngine => ([(10, "a preparar")], Returns false "soffice falhou")
                  | FallbackEngine => ([(10, "a iniciar"); (100, "feito")], Returns true "ok")
                  end).

(** every engine is installed but fails, each with its own message *)
Definition all_fail : World :=
  world (fun _ => true)
        (fun c => match engine_of c with
                  | OnlyOfficeEngine => ([(10, "a preparar")], Raises "servidor caiu")
                  | LibreOfficeEngine => ([(10, "a preparar")], Returns false "soffice falhou")
                  | FallbackEngine => ([(10, "a iniciar")], Returns false "biblioteca em falta")
                  end).

(** the fallback reports 100 and then returns a failure *)
Definition late_failure : World :=
  world (fun _ => true)
        (fun _ => ([(30, "a extrair"); (100, "quase")], Returns false "erro ao gravar")).

(** ffmpeg is installed as "bin/ffmpeg.exe"; a run creates its last
    argument, the output file. *)
Definition tools (available : Engine -> bool)
           (behaviour : EngineCall -> list (Q * string) * Outcome)
  : Ffmpeg.Tools (world available behaviour) :=
  Ffmpeg.mkTools (world available behaviour)
    "bin/ffmpeg.exe"
    (fun _ => EmptyString)
    ((fun (fs : list string) (command : list string) =>
        (Ffmpeg.Completed, last command EmptyString :: fs))
     : env (world available behaviour) -> list string
       -> Ffmpeg.ProcResult * env (world available behaviour)).

End Sample.

(** * Properties *)

Module DC := DocumentConverter.
Module MC := MainConverter.

(** ** The attempt loop of [DocumentConverter.convert] *)

Lemma attempts_app (l1 l2 : list DC.Event) :
  DC.attempts (l1 ++ l2) = (DC.attempts l1 ++ DC.attempts l2)%list.
Proof.
  induction l1 as [|[p m|c o] l1 IH]; simpl; [reflexivity|exact IH|now rewrite IH].
Qed.

Lemma percents_app (l1 l2 : list DC.Event) :
  DC.percents (l1 ++ l2) = (DC.percents l1 ++ DC.percents l2)%list.
Proof.
  induction l1 as [|[p m|c o] l1 IH]; simpl; [reflexivity|now rewrite IH|exact IH].
Qed.

Lemma attempts_report cb p m : DC.attempts (DC.report cb p m) = [].
Proof. now destruct cb. Qed.

Lemma attempts_relayed cb (f : Q * string -> Q) (l : list (Q * string)) :
  DC.attempts (flat_map (fun pm => DC.report cb (f pm) (snd pm)) l) = [].
Proof.
  induction l as [|x l IH]; simpl; [reflexivity|].
  now rewrite attempts_app, attempts_report, IH.
Qed.

Lemma engine_of_engine_call e ip op ie tf q :
  engine_of (DC.engine_call e ip op ie tf q) = e.
Proof. now destruct e. Qed.

(** One turn of the loop, seen from the engine calls it logs. *)
Lemma try_engines_step W cb ip op ie tf q step total i cp le s e rest res evs s' :
  DC.try_engines W cb ip op ie tf q step total i cp le s (e :: rest) = (res, evs, s') ->
  let call := DC.engine_call e ip op ie tf q in
  let a := engine_convert W s call in
  (exists m,
      outcome a = Returns true m
      /\ res = (true, "Documento convertido com sucesso usando " ++ engine_name e ++ ": " ++ m)
      /\ DC.attempts evs = [(call, outcome a)]
      /\ s' = env_after a)
  \/ (succeeded (outcome a) = false
      /\ exists evs2,
          DC.try_engines W cb ip op ie tf q step total (S i) (cp + step)
                         (DC.error_of (call, outcome a)) (env_after a) rest
          = (res, evs2, s')
          /\ DC.attempts evs = (call, outcome a) :: DC.attempts evs2).
Proof.
  intros H call a. simpl in H. fold call in H. fold a in H.
  assert (Hcall : engine_of call = e) by apply engine_of_engine_call.
  unfold DC.error_of. simpl. rewrite Hcall.
  destruct (outcome a) as [[|] m|err] eqn:Ho.
  - left. exists m. injection H as Hres Hevs Hs. subst res evs s'. repeat split.
    rewrite !attempts_app, attempts_report, attempts_relayed, attempts_report.
    reflexivity.
  - right. split; [reflexivity|].
    destruct (DC.try_engines _ _ _ _ _ _ _ _ _ _ _ _ _ _) as [[r2 evs2] s2] eqn:Hr in H.
    injection H as Hres Hevs Hs. subst res evs s'. exists evs2. split; [exact Hr|].
    rewrite !attempts_app, attempts_report, attempts_relayed. simpl.
    destruct (_ <? _)%Z; simpl; now rewrite ?attempts_report.
  - right. split; [reflexivity|].
    destruct (DC.try_engines _ _ _ _ _ _ _ _ _ _ _ _ _ _) as [[r2 evs2] s2] eqn:Hr in H.
    injection H as Hres Hevs Hs. subst res evs s'. exists evs2. split; [exact Hr|].
    rewrite !attempts_app, attempts_report, attempts_relayed. simpl.
    destruct (_ <? _)%Z; simpl; now rewrite ?attempts_report.
Qed.

Lemma last_cons_default {A : Type} (l : list A) (x d : A) :
  last (x :: l) d = last l x.
Proof.
  revert x d. induction l as [|y l IH]; intros x d; [reflexivity|].
  change (last (x :: y :: l) d) with (last (y :: l) d).
  rewrite IH. symmetry. apply IH.
Qed.

(** What the loop guarantees about the calls it made. *)
Lemma try_engines_attempts W cb ip op ie tf q step total :
  forall engines i cp le s res evs s',
    DC.try_engines W cb ip op ie tf q step total i cp le s engines = (res, evs, s') ->
    (exists rest, engines = (DC.engines_of (DC.attempts evs) ++ rest)%list)
    /\ (forall pre call m post,
           DC.attempts evs = (pre ++ (call, Returns true m) :: post)%list ->
           post = [] /\ Forall DC.failed_attempt pre
           /\ res = (true, "Documento convertido com sucesso usando "
                             ++ engine_name (engine_of call) ++ ": " ++ m))
    /\ (Forall DC.failed_attempt (DC.attempts evs) ->
        DC.engines_of (DC.attempts evs) = engines
        /\ res = (false, "Falha em todos os métodos de conversão. Último erro: "
                           ++ last (map DC.error_of (DC.attempts evs)) le)).
Proof.
  induction engines as [|e rest IH]; intros i cp le s res evs s' H.
  - simpl in H. injection H as <- <- <-. simpl. split; [|split].
    + now exists [].
    + intros pre call m post Hp. destruct pre; discriminate.
    + intros _. split; reflexivity.
  - apply try_engines_step in H. cbv zeta in H.
    destruct H as [(m & Ho & Hres & Hatt & _) | (Hf & evs2 & Hrec & Hatt)].
    + rewrite Hatt. split; [|split].
      * exists rest. simpl. now rewrite engine_of_engine_call.
      * intros pre call m' post Hp.
        destruct pre as [|x [|y pre]]; simpl in Hp; inversion Hp; subst.
        rewrite Ho in H1. inversion H1; subst.
        rewrite engine_of_engine_call. repeat split. constructor.
      * intros HF. inversion HF as [|? ? Hx _]; subst.
        unfold DC.failed_attempt in Hx. simpl in Hx. rewrite Ho in Hx. discriminate.
    + specialize (IH _ _ _ _ _ _ _ Hrec). destruct IH as (Hpre & Hsucc & Hfail).
      rewrite Hatt. split; [|split].
      * destruct Hpre as [rest' Hrest]. exists rest'. simpl.
        rewrite engine_of_engine_call. now rewrite Hrest at 1.
      * intros pre call m post Hp.
        destruct pre as [|x pre]; simpl in Hp; inversion Hp; subst.
        -- rewrite H1 in Hf. discriminate.
        -- destruct (Hsucc _ _ _ _ H1) as (Hpost & Hforall & Hres).
           repeat split; try assumption. constructor; assumption.
      * intros HF. inversion HF as [|? ? _ HF']; subst.
        destruct (Hfail HF') as [Heng ->]. split.
        -- simpl. rewrite engine_of_engine_call. now f_equal.
        -- f_equal. f_equal. simpl map. symmetry. apply last_cons_default.
Qed.

Lemma last_map_default {A B : Type} (f : A -> B) (l : list A) (d : A) :
  last (map f l) (f d) = f (last l d).
Proof.
  revert d. induction l as [|x l IH]; intros d; [reflexivity|].
  simpl map. rewrite !last_cons_default. apply IH.
Qed.

(** [convert] either stops before the loop, having called no engine, or runs
    the loop on a non-empty candidate list after reporting 10. *)
Lemma convert_inv W dc s ip op tf q cb res evs s' :
  DC.convert W dc s ip op tf q cb = (res, evs, s') ->
  let engines := DC.engines_to_try dc (DC.extension W ip) tf in
  (DC.attempts evs = [] /\ fst res = false /\ s' = s
   /\ (evs = [] \/ (engines = [] /\ evs = DC.report cb 10 "Iniciando conversão de documento...")))
  \/ (engines <> []
      /\ DC.is_supported_input W ip = true
      /\ DC.is_supported_output tf = true
      /\ path_exists W s ip = true
      /\ exists evs2,
          DC.try_engines W cb ip op (DC.extension W ip) tf q
                         (80 / Z.of_nat (length engines)) (length engines)
                         0 20 EmptyString s engines = (res, evs2, s')
          /\ evs = (DC.report cb 10 "Iniciando conversão de documento..." ++ evs2)%list).
Proof.
  intros H engines. unfold DC.convert in H. fold engines in H.
  destruct (DC.is_supported_input W ip); simpl in H;
    [|injection H as <- <- <-; left; auto].
  destruct (DC.is_supported_output tf); simpl in H;
    [|injection H as <- <- <-; left; auto].
  destruct (path_exists W s ip); simpl in H;
    [|injection H as <- <- <-; left; auto].
  destruct engines as [|e l] eqn:He.
  - injection H as <- <- <-. left. rewrite attempts_report.
    repeat split. right. split; reflexivity.
  - right.
    destruct (DC.try_engines _ _ _ _ _ _ _ _ _ _ _ _ _ _) as [[r2 evs2] s2] eqn:Hr in H.
    injection H as <- <- <-.
    repeat split; try discriminate. exists evs2. split; [exact Hr|reflexivity].
Qed.

(** The matrix built by [__init__] has three kinds of entries. *)
Lemma dict_get_init W s0 key :
  let available :=
    ((if engine_available W s0 OnlyOfficeEngine then [OnlyOfficeEngine] else [])
     ++ (if engine_available W s0 LibreOfficeEngine then [LibreOfficeEngine] else []))%list in
  DC.dict_get key (DC.conversion_methods (DC.init W s0)) = None
  \/ DC.dict_get key (DC.conversion_methods (DC.init W s0)) = Some available
  \/ DC.dict_get key (DC.conversion_methods (DC.init W s0)) = Some [FallbackEngine]
  \/ DC.dict_get key (DC.conversion_methods (DC.init W s0))
     = Some (available ++ [FallbackEngine])%list.
Proof.
  intros available. unfold DC.init. fold available.
  unfold DC.conversion_methods, DC.dict_get.
  repeat match goal with
         | |- context [if ?c then Some _ else _] => destruct c; [tauto|]
         end.
  tauto.
Qed.

Lemma engines_to_try_NoDup W s0 ie tf :
  NoDup (DC.engines_to_try (DC.init W s0) ie tf).
Proof.
  assert (Hinf : NoDup (if DC._can_use_onlyoffice ie tf
                        then [OnlyOfficeEngine; LibreOfficeEngine]
                        else if DC._can_use_libreoffice ie tf
                             then [LibreOfficeEngine]
                             else if DC._can_use_fallback ie tf
                                  then [FallbackEngine] else [])).
  { destruct (DC._can_use_onlyoffice ie tf);
      [|destruct (DC._can_use_libreoffice ie tf);
        [|destruct (DC._can_use_fallback ie tf)]];
      repeat constructor; simpl; intuition discriminate. }
  unfold DC.engines_to_try.
  destruct (dict_get_init W s0 (ie, tf)) as [H|[H|[H|H]]]; rewrite H; clear H;
    [exact Hinf| | |];
    destruct (engine_available W s0 OnlyOfficeEngine);
    destruct (engine_available W s0 LibreOfficeEngine); simpl;
    try exact Hinf; repeat constructor; simpl; intuition discriminate.
Qed.

(** ** Claims about [DocumentConverter.convert] *)

(** C1. When, in one [convert] call, an engine call returns success, it is
    the last call made: no candidate is called after it, every call before it
    failed, [convert] returns [True] with the message built from that engine
    and its message, the engines called are an initial part of the ordered
    candidate list, and no engine is called twice. *)
Theorem convert_stops_at_first_success
        W s0 s ip op tf q cb res evs s' pre call m post :
  DC.convert W (DC.init W s0) s ip op tf q cb = (res, evs, s') ->
  DC.attempts evs = (pre ++ (call, Returns true m) :: post)%list ->
  post = []
  /\ Forall DC.failed_attempt pre
  /\ res = (true, "Documento convertido com sucesso usando "
                    ++ engine_name (engine_of call) ++ ": " ++ m)
  /\ NoDup (DC.engines_of (DC.attempts evs))
  /\ exists rest,
      DC.engines_to_try (DC.init W s0) (DC.extension W ip) tf
      = (DC.engines_of (DC.attempts evs) ++ rest)%list.
Proof.
  intros H Hatt.
  destruct (convert_inv _ _ _ _ _ _ _ _ _ _ _ H)
    as [(Hnone & _) | (_ & _ & _ & _ & evs2 & Hloop & ->)].
  - rewrite Hnone in Hatt. destruct pre; discriminate.
  - rewrite attempts_app, attempts_report in *.
    change ([] ++ DC.attempts evs2)%list with (DC.attempts evs2) in *.
    destruct (try_engines_attempts _ _ _ _ _ _ _ _ _ _ _ _ _ _ _ _ _ Hloop)
      as ([rest Hrest] & Hsucc & _).
    destruct (Hsucc _ _ _ _ Hatt) as (Hpost & Hpre & Hres).
    repeat split; try assumption.
    + pose proof (engines_to_try_NoDup W s0 (DC.extension W ip) tf) as Hnd.
      rewrite Hrest in Hnd. now apply NoDup_app_remove_r in Hnd.
    + now exists rest.
Qed.

Lemma convert_stops_at_first_success_witness :
  let W := Sample.only_fallback_works in
  let r := DC.convert W (DC.init W []) ["a.docx"] "a.docx" "out/a.txt" "txt" "media" true in
  fst (fst r) = (true, "Documento convertido com sucesso usando Fallback: ok")
  /\ NoDup (DC.engines_of (DC.attempts (snd (fst r)))).
Proof.
  intros W r.
  destruct (convert_stops_at_first_success
              W [] ["a.docx"] "a.docx" "out/a.txt" "txt" "media" true
              (fst (fst r)) (snd (fst r)) (snd r)
              [(StandardCall OnlyOfficeEngine "a.docx" "out/a.txt" "txt" "media",
                Raises "servidor caiu");
               (StandardCall LibreOfficeEngine "a.docx" "out/a.txt" "txt" "media",
                Returns false "soffice falhou")]
              (FallbackCall "a.docx" "out/a.txt" "docx" "txt") "ok" []
              eq_refl eq_refl)
    as (_ & _ & Hres & Hnd & _).
  split; assumption.
Defined.

(** C2. When engine calls were made and none returned success (each returned
    a failure or raised), every candidate was called, and [convert] returns
    [False] with a message that carries the error of the last call only: its
    returned message, or, if it raised, the text made from its exception.
    Nothing of the earlier calls' errors is in the result, and an exception
    of an engine ends as that call's failure, not as one of [convert]. *)
Theorem convert_all_fail_last_error W s0 s ip op tf q cb res evs s' :
  DC.convert W (DC.init W s0) s ip op tf q cb = (res, evs, s') ->
  DC.attempts evs <> [] ->
  Forall DC.failed_attempt (DC.attempts evs) ->
  DC.engines_of (DC.attempts evs)
  = DC.engines_to_try (DC.init W s0) (DC.extension W ip) tf
  /\ forall d,
      res = (false, "Falha em todos os métodos de conversão. Último erro: "
                      ++ DC.error_of (last (DC.attempts evs) d)).
Proof.
  intros H Hne HF.
  destruct (convert_inv _ _ _ _ _ _ _ _ _ _ _ H)
    as [(Hnone & _) | (_ & _ & _ & _ & evs2 & Hloop & ->)].
  - contradiction.
  - rewrite attempts_app, attempts_report in *.
    change ([] ++ DC.attempts evs2)%list with (DC.attempts evs2) in *.
    destruct (try_engines_attempts _ _ _ _ _ _ _ _ _ _ _ _ _ _ _ _ _ Hloop)
      as (_ & _ & Hfail).
    destruct (Hfail HF) as [Heng ->]. split; [exact Heng|].
    intros d. f_equal. f_equal.
    destruct (DC.attempts evs2) as [|a l]; [contradiction|].
    simpl map. rewrite !last_cons_default. apply last_map_default.
Qed.

Lemma convert_all_fail_last_error_witness :
  let W := Sample.all_fail in
  let r := DC.convert W (DC.init W []) ["a.docx"] "a.docx" "out/a.txt" "txt" "media" true in
  fst (fst r)
  = (false, "Falha em todos os métodos de conversão. Último erro: biblioteca em falta").
Proof.
  intros W r.
  destruct (convert_all_fail_last_error
              W [] ["a.docx"] "a.docx" "out/a.txt" "txt" "media" true
              (fst (fst r)) (snd (fst r)) (snd r) eq_refl)
    as [_ Hres].
  - discriminate.
  - repeat constructor.
  - exact (Hres (FallbackCall "a" "b" "c" "d", Raises "e")).
Defined.

(** C3. For an existing input of a supported format and a supported target
    format, when the pair has no entry in the conversion-methods matrix and
    none of the three capability checks accepts it, [convert] returns
    failure and calls no engine. *)
Theorem convert_no_candidate_no_attempt W s0 s ip op tf q cb :
  DC.is_supported_input W ip = true ->
  DC.is_supported_output tf = true ->
  path_exists W s ip = true ->
  DC.dict_get (DC.extension W ip, tf) (DC.conversion_methods (DC.init W s0)) = None ->
  (forall e, DC.can_use e (DC.extension W ip) tf = false) ->
  exists evs,
    DC.convert W (DC.init W s0) s ip op tf q cb
    = ((false, "Conversão de " ++ DC.extension W ip ++ " para " ++ tf
                 ++ " não suportada pelos engines disponíveis"), evs, s)
    /\ DC.attempts evs = [].
Proof.
  intros Hin Hout Hex Hget Hcap.
  exists (DC.report cb 10 "Iniciando conversão de documento...").
  split; [|apply attempts_report].
  unfold DC.convert. rewrite Hin, Hout, Hex. simpl.
  unfold DC.engines_to_try. rewrite Hget.
  unfold DC._can_use_onlyoffice, DC._can_use_libreoffice, DC._can_use_fallback.
  rewrite !Hcap. reflexivity.
Qed.

Lemma convert_no_candidate_no_attempt_witness :
  exists evs,
    DC.convert Sample.all_good (DC.init Sample.all_good []) ["a.pdf"]
               "a.pdf" "out/a.odt" "odt" "media" true
    = ((false, "Conversão de pdf para odt não suportada pelos engines disponíveis"),
       evs, ["a.pdf"])
    /\ DC.attempts evs = [].
Proof.
  apply (convert_no_candidate_no_attempt
           Sample.all_good [] ["a.pdf"] "a.pdf" "out/a.odt" "odt" "media" true);
    try reflexivity.
  intros e; destruct e; reflexivity.
Defined.

Lemma dict_get_In {V : Type} (key : string * string) (d : list ((string * string) * V)) v :
  DC.dict_get key d = Some v -> In (key, v) d.
Proof.
  induction d as [|[k w] d IH]; simpl; [discriminate|].
  destruct (String.eqb (fst key) (fst k)) eqn:E1;
    destruct (String.eqb (snd key) (snd k)) eqn:E2; simpl; auto.
  intros [= ->]. left.
  apply String.eqb_eq in E1. apply String.eqb_eq in E2.
  destruct key, k; simpl in *; now subst.
Qed.

(** C4, as the code has it. For a pair whose entry in the conversion-methods
    matrix is not empty, every engine that [convert] calls is listed in that
    entry, is declared able to convert the pair (by the converter's
    [engine_capabilities] and by the engine's own [can_convert] where the
    engine class has one), and, unless it is the fallback engine, passed
    [is_available] when the converter was constructed. Availability is
    probed at construction only. *)
Theorem convert_matrix_engines_declared_and_probed
        W s0 s ip op tf q cb res evs s' l :
  DC.convert W (DC.init W s0) s ip op tf q cb = (res, evs, s') ->
  DC.dict_get (DC.extension W ip, tf) (DC.conversion_methods (DC.init W s0)) = Some l ->
  l <> [] ->
  Forall (fun e =>
            In e l
            /\ DC.can_use e (DC.extension W ip) tf = true
            /\ engine_can_convert e (DC.extension W ip) tf <> Some false
            /\ (e <> FallbackEngine -> engine_available W s0 e = true))
         (DC.engines_of (DC.attempts evs)).
Proof.
  intros H Hget Hne.
  assert (Hall : forall e, In e l ->
                 DC.can_use e (DC.extension W ip) tf = true
                 /\ engine_can_convert e (DC.extension W ip) tf <> Some false
                 /\ (e <> FallbackEngine -> engine_available W s0 e = true)).
  { apply dict_get_In in Hget. unfold DC.init, DC.conversion_methods in Hget.
    intros e He.
    destruct (engine_available W s0 OnlyOfficeEngine) eqn:Hoo;
      destruct (engine_available W s0 LibreOfficeEngine) eqn:Hlo;
      simpl in Hget;
      repeat (destruct Hget as [Hget|Hget];
              [injection Hget as Hie Htf Hl; rewrite <- Hie, <- Htf; subst l; simpl in He;
               repeat (destruct He as [<-|He];
                       [repeat split; (reflexivity || discriminate || congruence)|]);
               contradiction|]);
      contradiction. }
  destruct (convert_inv _ _ _ _ _ _ _ _ _ _ _ H)
    as [(Hnone & _) | (_ & _ & _ & _ & evs2 & Hloop & ->)].
  - rewrite Hnone. constructor.
  - rewrite attempts_app, attempts_report.
    change ([] ++ DC.attempts evs2)%list with (DC.attempts evs2).
    destruct (try_engines_attempts _ _ _ _ _ _ _ _ _ _ _ _ _ _ _ _ _ Hloop)
      as ([rest Hrest] & _ & _).
    unfold DC.engines_to_try in Hrest. rewrite Hget in Hrest.
    destruct l as [|e0 l0]; [contradiction|].
    apply Forall_forall. intros e He. split.
    + rewrite Hrest. apply in_or_app. now left.
    + apply Hall. rewrite Hrest. apply in_or_app. now left.
Qed.

Lemma convert_matrix_engines_declared_and_probed_witness :
  let W := Sample.all_fail in
  let r := DC.convert W (DC.init W []) ["a.docx"] "a.docx" "out/a.txt" "txt" "media" true in
  Forall (fun e =>
            In e [OnlyOfficeEngine; LibreOfficeEngine; FallbackEngine]
            /\ DC.can_use e "docx" "txt" = true
            /\ engine_can_convert e "docx" "txt" <> Some false
            /\ (e <> FallbackEngine -> engine_available W [] e = true))
         (DC.engines_of (DC.attempts (snd (fst r)))).
Proof.
  intros W r.
  apply (convert_matrix_engines_declared_and_probed
           W [] ["a.docx"] "a.docx" "out/a.txt" "txt" "media" true
           (fst (fst r)) (snd (fst r)) (snd r)
           [OnlyOfficeEngine; LibreOfficeEngine; FallbackEngine]);
    [reflexivity | reflexivity | discriminate].
Defined.

(** C4 as stated fails. With no engine available, at construction or later,
    [convert] of a docx to pdf still calls OnlyOffice and LibreOffice; and a
    pdf is sent to the fallback engine for html although that engine's own
    [can_convert] rejects the pair. *)
Lemma unavailable_or_undeclared_engine_is_called :
  (forall s e, engine_available Sample.all_down s e = false)
  /\ DC.engines_of
       (DC.attempts
          (snd (fst (DC.convert Sample.all_down (DC.init Sample.all_down ["a.docx"])
                                ["a.docx"] "a.docx" "out/a.pdf" "pdf" "media" true))))
     = [OnlyOfficeEngine; LibreOfficeEngine]
  /\ engine_can_convert FallbackEngine "pdf" "html" = Some false
  /\ DC.engines_of
       (DC.attempts
          (snd (fst (DC.convert Sample.all_fail (DC.init Sample.all_fail ["a.pdf"])
                                ["a.pdf"] "a.pdf" "out/a.html" "html" "media" true))))
     = [FallbackEngine].
Proof. repeat split. Qed.

(** ** Progress values of [DocumentConverter.convert] *)

Lemma inject_Z_nonneg z : (0 <= z)%Z -> 0 <= inject_Z z.
Proof. intros H. change 0 with (inject_Z 0). now rewrite <- Zle_Qle. Qed.

Lemma scaled_mono cp step (p1 p2 : Q) :
  (0 <= step)%Z -> p1 <= p2 -> DC.scaled cp step p1 <= DC.scaled cp step p2.
Proof.
  intros Hs Hp. unfold DC.scaled, Qdiv; change (/ 100) with (1 # 100).
  pose proof (Qmult_le_compat_r _ _ _ Hp (inject_Z_nonneg _ Hs)). lra.
Qed.
Lemma scaled_lower cp step (p : Q) :
  (0 <= step)%Z -> 0 <= p -> inject_Z cp <= DC.scaled cp step p.
Proof.
  intros Hs Hp. unfold DC.scaled, Qdiv; change (/ 100) with (1 # 100).
  pose proof (Qmult_le_0_compat _ _ Hp (inject_Z_nonneg _ Hs)). lra.
Qed.
Lemma scaled_upper cp step (p : Q) :
  (0 <= step)%Z -> p <= 100 -> DC.scaled cp step p <= inject_Z (cp + step).
Proof.
  intros Hs Hp. unfold DC.scaled, Qdiv; change (/ 100) with (1 # 100). rewrite inject_Z_plus.
  pose proof (Qmult_le_compat_r _ _ _ Hp (inject_Z_nonneg _ Hs)). lra.
Qed.
Lemma scaled_below cp step (p : Q) :
  (0 <= step)%Z -> (cp + step <= 100)%Z -> (cp < 100)%Z -> p < 100 ->
  DC.scaled cp step p < 100.
Proof.
  intros Hs Hb Hc Hp. unfold DC.scaled, Qdiv; change (/ 100) with (1 # 100).
  assert (H1 : inject_Z cp + inject_Z step <= 100).
  { rewrite <- inject_Z_plus. change 100 with (inject_Z 100). now rewrite <- Zle_Qle. }
  assert (H2 : inject_Z cp < 100).
  { change 100 with (inject_Z 100). now rewrite <- Zlt_Qlt. }
  destruct (Z.eq_dec step 0) as [->|Hne].
  - change (inject_Z 0) with 0. lra.
  - assert (H3 : 0 < inject_Z step).
    { change 0 with (inject_Z 0). rewrite <- Zlt_Qlt. lia. }
    pose proof (Qmult_lt_compat_r _ _ _ H3 Hp). lra.
Qed.

Lemma percents_report cb p m :
  DC.percents (DC.report cb p m) = if cb then [p] else [].
Proof. now destruct cb. Qed.

Lemma percents_relayed cb cp step (l : list (Q * string)) :
  DC.percents (flat_map (fun pm => DC.report cb (DC.scaled cp step (fst pm)) (snd pm)) l)
  = if cb then map (DC.scaled cp step) (map fst l) else [].
Proof.
  induction l as [|x l IH]; simpl; [now destruct cb|].
  rewrite percents_app, percents_report, IH. now destruct cb.
Qed.

Lemma sorted_app (b : Q) (l1 l2 : list Q) :
  StronglySorted Qle l1 -> StronglySorted Qle l2 ->
  Forall (fun x => x <= b) l1 -> Forall (fun y => b <= y) l2 ->
  StronglySorted Qle (l1 ++ l2).
Proof.
  intros S1 S2 B1 B2. induction S1 as [|x l1 S1 IH Hx]; simpl; [exact S2|].
  inversion B1 as [|? ? Hxb B1']; subst. constructor; [now apply IH|].
  apply Forall_app. split; [exact Hx|].
  eapply Forall_impl; [|exact B2]. intros y Hy. simpl in Hy.
  now apply Qle_trans with b.
Qed.

Lemma sorted_scaled cp step (l : list Q) :
  (0 <= step)%Z -> StronglySorted Qle l ->
  StronglySorted Qle (map (DC.scaled cp step) l).
Proof.
  intros Hs S. induction S as [|x l S IH Hx]; simpl; constructor; [exact IH|].
  apply Forall_map. eapply Forall_impl; [|exact Hx].
  intros y Hy. now apply scaled_mono.
Qed.

(** One turn of the loop, seen from all the events it logs. *)
Lemma try_engines_events W cb ip op ie tf q step total i cp le s e rest res evs s' :
  DC.try_engines W cb ip op ie tf q step total i cp le s (e :: rest) = (res, evs, s') ->
  let a := engine_convert W s (DC.engine_call e ip op ie tf q) in
  exists m1 m2 m3,
    let ev :=
      (DC.report cb (inject_Z cp) m1
       ++ flat_map (fun pm => DC.report cb (DC.scaled cp step (fst pm)) (snd pm)) (emitted a)
       ++ [DC.Attempted (DC.engine_call e ip op ie tf q) (outcome a)])%list in
    (succeeded (outcome a) = true /\ fst res = true
     /\ evs = (ev ++ DC.report cb 100 m2)%list)
    \/ (succeeded (outcome a) = false
        /\ exists evs2 le',
            DC.try_engines W cb ip op ie tf q step total (S i) (cp + step) le'
                           (env_after a) rest = (res, evs2, s')
            /\ evs = (ev ++ (if (Z.of_nat i <? Z.of_nat total - 1)%Z
                             then DC.report cb (inject_Z (cp + step)) m3 else [])
                         ++ evs2)%list).
Proof.
  intros H a. cbn [DC.try_engines] in H. fold a in H.
  destruct (outcome a) as [[|] m|err] eqn:Ho.
  - injection H as <- <- <-. do 3 eexists. left. repeat split.
  - destruct (DC.try_engines _ _ _ _ _ _ _ _ _ _ _ _ _ _) as [[r2 evs2] s2] eqn:Hr in H.
    injection H as <- <- <-. do 3 eexists. right. split; [reflexivity|].
    do 2 eexists. split; [exact Hr|reflexivity].
  - destruct (DC.try_engines _ _ _ _ _ _ _ _ _ _ _ _ _ _) as [[r2 evs2] s2] eqn:Hr in H.
    injection H as <- <- <-. do 3 eexists. right. split; [reflexivity|].
    do 2 eexists. split; [exact Hr|reflexivity].
  Unshelve. all: exact EmptyString.
Qed.

(** The percentages one turn puts before what the rest of the loop reports:
    they are in order, between the current progress and the next one. *)
Lemma turn_percents W cb cp step m1 (a : Attempt (env W)) c o :
  (0 <= step)%Z ->
  StronglySorted Qle (map fst (emitted a)) ->
  Forall (fun p => 0 <= p /\ p <= 100) (map fst (emitted a)) ->
  let l := DC.percents
             (DC.report cb (inject_Z cp) m1
              ++ flat_map (fun pm => DC.report cb (DC.scaled cp step (fst pm)) (snd pm))
                          (emitted a)
              ++ [DC.Attempted c o]) in
  StronglySorted Qle l
  /\ Forall (fun p => inject_Z cp <= p /\ p <= inject_Z (cp + step)) l.
Proof.
  intros Hs Hsorted Hbound l. subst l.
  rewrite !percents_app, percents_report, percents_relayed. simpl.
  rewrite app_nil_r.
  assert (Hin : Forall (fun p => inject_Z cp <= p /\ p <= inject_Z (cp + step))
                       (map (DC.scaled cp step) (map fst (emitted a)))).
  { apply Forall_map. eapply Forall_impl; [|exact Hbound].
    intros p [H0 H100]. split; [now apply scaled_lower|now apply scaled_upper]. }
  destruct cb; simpl; [|split; constructor].
  split.
  - constructor; [now apply sorted_scaled|].
    eapply Forall_impl; [|exact Hin]. now intros p [H _].
  - constructor; [|exact Hin]. split; [apply Qle_refl|].
    rewrite <- Zle_Qle. lia.
Qed.

Lemma try_engines_percents W cb ip op ie tf q step total :
  DC.reports_in_order W ->
  (0 <= step)%Z ->
  forall engines i cp le s res evs s',
    (cp + step * Z.of_nat (length engines) <= 100)%Z ->
    DC.try_engines W cb ip op ie tf q step total i cp le s engines = (res, evs, s') ->
    StronglySorted Qle (DC.percents evs)
    /\ Forall (fun p => inject_Z cp <= p /\ p <= 100) (DC.percents evs).
Proof.
  intros Hcontract Hs.
  induction engines as [|e rest IH]; intros i cp le s res evs s' Hb H.
  - simpl in H. injection H as <- <- <-. split; constructor.
  - cbn [length] in Hb.
    assert (Hnext : (cp + step <= 100)%Z) by nia.
    apply try_engines_events in H. cbv zeta in H.
    destruct H as (m1 & m2 & m3 & H).
    destruct (Hcontract s (DC.engine_call e ip op ie tf q)) as [Hsorted Hbound].
    destruct (turn_percents W cb cp step m1 _
                (DC.engine_call e ip op ie tf q)
                (outcome (engine_convert W s (DC.engine_call e ip op ie tf q)))
                Hs Hsorted Hbound) as [Ht Htb].
    match type of Ht with
    | StronglySorted _ (DC.percents ?l) => set (ev := l) in *
    end.
    assert (Htb100 : Forall (fun p => inject_Z cp <= p /\ p <= 100) (DC.percents ev)).
    { eapply Forall_impl; [|exact Htb]. intros p [H1 H2]. split; [exact H1|].
      apply Qle_trans with (inject_Z (cp + step)); [exact H2|].
      change 100 with (inject_Z 100). rewrite <- Zle_Qle. lia. }
    assert (Hcp100 : inject_Z cp <= 100).
    { change 100 with (inject_Z 100). rewrite <- Zle_Qle. nia. }
    destruct H as [(_ & _ & ->) | (_ & evs2 & le' & Hrec & ->)].
    + rewrite percents_app, percents_report. split.
      * apply sorted_app with (b := 100).
        -- exact Ht.
        -- destruct cb; repeat constructor.
        -- eapply Forall_impl; [|exact Htb100]. now intros p [_ H].
        -- destruct cb; repeat constructor. apply Qle_refl.
      * apply Forall_app. split; [exact Htb100|].
        destruct cb; repeat constructor; [exact Hcp100|apply Qle_refl].
    + assert (Hb' : (cp + step + step * Z.of_nat (length rest) <= 100)%Z) by nia.
      destruct (IH _ _ _ _ _ _ _ Hb' Hrec) as [Hs2 Hb2].
      assert (Hmid : StronglySorted Qle
                       (DC.percents (if (Z.of_nat i <? Z.of_nat total - 1)%Z
                                     then DC.report cb (inject_Z (cp + step)) m3 else []))
                     /\ Forall (fun p => inject_Z (cp + step) <= p /\ p <= inject_Z (cp + step))
                               (DC.percents (if (Z.of_nat i <? Z.of_nat total - 1)%Z
                                             then DC.report cb (inject_Z (cp + step)) m3
                                             else []))).
      { destruct (_ <? _)%Z; [rewrite percents_report; destruct cb|];
          split; repeat constructor; apply Qle_refl. }
      destruct Hmid as [Hm1 Hm2].
      rewrite !percents_app. split.
      * apply sorted_app with (b := inject_Z (cp + step)).
        -- exact Ht.
        -- apply sorted_app with (b := inject_Z (cp + step)); try assumption.
           ++ eapply Forall_impl; [|exact Hm2]. now intros p [_ H].
           ++ eapply Forall_impl; [|exact Hb2]. now intros p [H _].
        -- eapply Forall_impl; [|exact Htb]. now intros p [_ H].
        -- apply Forall_app. split.
           ++ eapply Forall_impl; [|exact Hm2]. now intros p [H _].
           ++ eapply Forall_impl; [|exact Hb2]. now intros p [H _].
      * apply Forall_app. split; [exact Htb100|]. apply Forall_app. split.
        -- eapply Forall_impl; [|exact Hm2]. intros p [H1 H2]. split.
           ++ apply Qle_trans with (inject_Z (cp + step)); [|exact H1].
              rewrite <- Zle_Qle. lia.
           ++ apply Qle_trans with (inject_Z (cp + step)); [exact H2|].
              change 100 with (inject_Z 100). rewrite <- Zle_Qle. lia.
        -- eapply Forall_impl; [|exact Hb2]. intros p [H1 H2]. split; [|exact H2].
           apply Qle_trans with (inject_Z (cp + step)); [|exact H1].
           rewrite <- Zle_Qle. lia.
Qed.

Lemma try_engines_below_100 W cb ip op ie tf q step total :
  DC.no_100_on_failure W ->
  (0 <= step)%Z ->
  forall engines i cp le s res evs s',
    total = (i + length engines)%nat ->
    (cp + step * Z.of_nat (length engines) <= 100)%Z ->
    (cp < 100)%Z ->
    DC.try_engines W cb ip op ie tf q step total i cp le s engines = (res, evs, s') ->
    fst res = false ->
    Forall (fun p => p < 100) (DC.percents evs).
Proof.
  intros Hquiet Hs.
  induction engines as [|e rest IH]; intros i cp le s res evs s' Ht Hb Hc H Hres.
  - simpl in H. injection H as <- <- <-. constructor.
  - cbn [length] in Hb, Ht.
    apply try_engines_events in H. cbv zeta in H.
    destruct H as (m1 & m2 & m3 & [(_ & Htrue & _) | (Hfail & evs2 & le' & Hrec & ->)]).
    + rewrite Htrue in Hres. discriminate.
    + specialize (Hquiet _ _ Hfail).
      rewrite !percents_app, percents_report, percents_relayed.
      repeat (apply Forall_app; split).
      * destruct cb; repeat constructor.
        change 100 with (inject_Z 100). rewrite <- Zlt_Qlt. exact Hc.
      * destruct cb; [|constructor]. apply Forall_map.
        eapply Forall_impl; [|exact Hquiet].
        intros p Hp. apply scaled_below; try assumption. nia.
      * constructor.
      * destruct (Z.of_nat i <? Z.of_nat total - 1)%Z eqn:Hlast; [|constructor].
        rewrite percents_report. destruct cb; repeat constructor.
        change 100 with (inject_Z 100). rewrite <- Zlt_Qlt.
        apply Z.ltb_lt in Hlast. nia.
      * destruct rest as [|e2 rest2].
        -- simpl in Hrec. injection Hrec as <- <- <-. constructor.
        -- cbn [length] in *.
           eapply IH; [| | |exact Hrec|exact Hres]; [lia|nia|nia].
Qed.

Lemma try_engines_ends_with_100 W ip op ie tf q step total :
  forall engines i cp le s res evs s',
    DC.try_engines W true ip op ie tf q step total i cp le s engines = (res, evs, s') ->
    fst res = true ->
    exists l, DC.percents evs = (l ++ [100])%list.
Proof.
  induction engines as [|e rest IH]; intros i cp le s res evs s' H Hres.
  - simpl in H. injection H as <- <- <-. discriminate.
  - apply try_engines_events in H. cbv zeta in H.
    destruct H as (m1 & m2 & m3 & [(_ & _ & ->) | (_ & evs2 & le' & Hrec & ->)]).
    + rewrite percents_app. eexists. reflexivity.
    + destruct (IH _ _ _ _ _ _ _ Hrec Hres) as [l Hl].
      rewrite !percents_app, Hl, !app_assoc. eexists. reflexivity.
Qed.


Lemma sample_reports_in_order available emitted_pairs result :
  StronglySorted Qle (map fst emitted_pairs) ->
  Forall (fun p => 0 <= p /\ p <= 100) (map fst emitted_pairs) ->
  DC.reports_in_order (Sample.world available (fun _ => (emitted_pairs, result))).
Proof. intros H1 H2 s call. split; assumption. Qed.



(** ** Claims about [MainConverter] *)

(** C5. Two formats that are equal up to letter case are not a supported
    conversion, and [add_conversion_job] for a file whose extension equals
    the target format up to case returns [False] and leaves the object, and
    so the job list, as it was. *)
Theorem same_format_never_a_job (i o : string) :
  lower i = lower o ->
  MC.is_format_supported i o = false
  /\ forall W self s input_path output_dir quality,
      DC.extension W input_path = i ->
      MC.add_conversion_job W self s input_path output_dir o quality = (false, self).
Proof.
  intros H.
  assert (Hs : MC.is_format_supported i o = false).
  { unfold MC.is_format_supported. rewrite H, String.eqb_refl. reflexivity. }
  split; [exact Hs|].
  intros W self s input_path output_dir quality Hext.
  unfold MC.add_conversion_job.
  destruct (path_exists W s input_path); simpl; [|reflexivity].
  destruct (String.eqb (MC.detect_file_type W s input_path) "unknown"); [reflexivity|].
  rewrite Hext, Hs. reflexivity.
Qed.

Lemma same_format_never_a_job_witness :
  MC.is_format_supported "pdf" "PDF" = false
  /\ MC.add_conversion_job Sample.all_good (MC.init Sample.all_good ["a.pdf"]) ["a.pdf"]
                           "a.pdf" "out" "PDF" "Média"
     = (false, MC.init Sample.all_good ["a.pdf"]).
Proof.
  destruct (same_format_never_a_job "pdf" "PDF" eq_refl) as [H1 H2].
  split; [exact H1|].
  exact (H2 Sample.all_good (MC.init Sample.all_good ["a.pdf"]) ["a.pdf"]
            "a.pdf" "out" "Média" eq_refl).
Defined.

(** C8. While a run is in progress, [start_conversion] returns [False] and
    changes nothing: the job list and the current job index stay as they
    are (and so does the rest of the object and the environment). *)
Theorem start_rejected_while_converting W self s file_paths output_dir tf q :
  MC.is_converting self = true ->
  MC.start_conversion W self s file_paths output_dir tf q = (false, self, s).
Proof. intros H. unfold MC.start_conversion. now rewrite H. Qed.

Lemma start_rejected_while_converting_witness :
  let W := Sample.all_good in
  let st := MC.start_conversion W (MC.init W []) ["a.docx"; "b.txt"]
                                ["a.docx"; "b.txt"] "out" "pdf" "Média" in
  MC.start_conversion W (snd (fst st)) (snd st) ["b.txt"] "out2" "docx" "Alta"
  = (false, snd (fst st), snd st).
Proof.
  intros W st.
  exact (start_rejected_while_converting W (snd (fst st)) (snd st)
           ["b.txt"] "out2" "docx" "Alta" eq_refl).
Defined.

Lemma process_next_job_idle W self s :
  MC.is_converting self = false ->
  MC.process_next_job W self s = ((false, false), self, s).
Proof. intros H. unfold MC.process_next_job. now rewrite H. Qed.

Lemma run_ops_process_idle W self s n :
  MC.is_converting self = false ->
  MC.run_ops W (repeat MC.OpProcess n) (self, s) = (self, s).
Proof.
  intros H. induction n as [|n IH]; [reflexivity|].
  unfold MC.run_ops in *. simpl. rewrite (process_next_job_idle W self s H). exact IH.
Qed.

(** The callbacks only add to the log. *)
Lemma jobs_say self m : MC.jobs (MC.say self m) = MC.jobs self.
Proof. unfold MC.say. now destruct (MC.status_callback self). Qed.

Lemma index_say self m : MC.current_job_index (MC.say self m) = MC.current_job_index self.
Proof. unfold MC.say. now destruct (MC.status_callback self). Qed.

Lemma converting_say self m : MC.is_converting (MC.say self m) = MC.is_converting self.
Proof. unfold MC.say. now destruct (MC.status_callback self). Qed.

Lemma jobs_tell self p m : MC.jobs (MC.tell_progress self p m) = MC.jobs self.
Proof. unfold MC.tell_progress. now destruct (MC.progress_callback self). Qed.

Lemma index_tell self p m :
  MC.current_job_index (MC.tell_progress self p m) = MC.current_job_index self.
Proof. unfold MC.tell_progress. now destruct (MC.progress_callback self). Qed.

Lemma converting_tell self p m :
  MC.is_converting (MC.tell_progress self p m) = MC.is_converting self.
Proof. unfold MC.tell_progress. now destruct (MC.progress_callback self). Qed.

Lemma jobs_finish self : MC.jobs (MC.finish_conversion self) = MC.jobs self.
Proof.
  unfold MC.finish_conversion. rewrite jobs_tell.
  destruct (_ =? _)%nat; now rewrite jobs_say.
Qed.

Lemma index_finish self :
  MC.current_job_index (MC.finish_conversion self) = MC.current_job_index self.
Proof.
  unfold MC.finish_conversion. rewrite index_tell.
  destruct (_ =? _)%nat; now rewrite index_say.
Qed.

Lemma converting_finish self : MC.is_converting (MC.finish_conversion self) = false.
Proof.
  unfold MC.finish_conversion. rewrite converting_tell.
  destruct (_ =? _)%nat; now rewrite converting_say.
Qed.

Lemma jobs_stop self : MC.jobs (MC.stop_conversion self) = MC.jobs self.
Proof.
  unfold MC.stop_conversion. destruct (MC.is_converting self); [|reflexivity].
  now rewrite jobs_tell, jobs_say.
Qed.

Lemma converting_stop self : MC.is_converting (MC.stop_conversion self) = false.
Proof.
  unfold MC.stop_conversion. destruct (MC.is_converting self) eqn:E; [|exact E].
  now rewrite converting_tell, converting_say.
Qed.

Lemma update_job_twice i f g js :
  MC.update_job i f (MC.update_job i g js) = MC.update_job i (fun j => f (g j)) js.
Proof.
  revert i. induction js as [|j js IH]; intros [|i]; simpl; [reflexivity..|].
  now rewrite IH.
Qed.

Lemma update_job_at i f js j :
  nth_error js i = Some j ->
  MC.update_job i f js = MC.update_job i (fun _ => f j) js.
Proof.
  revert i. induction js as [|x js IH]; intros [|i]; simpl; try discriminate.
  - now intros [= ->].
  - intros H. now rewrite (IH _ H).
Qed.

Lemma length_update_job i f js : length (MC.update_job i f js) = length js.
Proof.
  revert i. induction js as [|j js IH]; intros [|i]; simpl; [reflexivity..|].
  now rewrite IH.
Qed.

Create Rewrite HintDb mc_fields.

#[local] Hint Rewrite jobs_say index_say converting_say jobs_tell index_tell
  converting_tell jobs_finish index_finish converting_finish jobs_stop
  converting_stop length_update_job : mc_fields.

Ltac mc_fields :=
  do 6 (autorewrite with mc_fields in *;
        cbn [MC.jobs MC.current_job_index MC.is_converting MC.with_jobs
             MC.with_index MC.with_converting MC.emit] in *).

(** What [process_next_job] does to the object when there is a current
    job: that job ends completed or failed, the other jobs are untouched,
    and the index moves on by one. *)
Lemma process_next_job_active W self s j :
  MC.is_converting self = true ->
  nth_error (MC.jobs self) (MC.current_job_index self) = Some j ->
  exists r self' s' j',
    MC.process_next_job W self s = (r, self', s')
    /\ MC.jobs self' = MC.update_job (MC.current_job_index self) (fun _ => j') (MC.jobs self)
    /\ (MC.status j' = "completed" \/ MC.status j' = "failed")
    /\ MC.current_job_index self' = (MC.current_job_index self + 1)%nat
    /\ MC.is_converting self'
       = (MC.current_job_index self + 1 <? length (MC.jobs self))%nat.
Proof.
  intros Hc Hj. unfold MC.process_next_job. rewrite Hc, Hj.
  assert (Hlt : (MC.current_job_index self < length (MC.jobs self))%nat).
  { apply nth_error_Some. congruence. }
  apply Nat.leb_gt in Hlt. rewrite Hlt. cbn [negb orb].
  match goal with
  | |- context [MC.run_current_job ?w ?x ?y ?z] =>
      destruct (MC.run_current_job w x y z) as [[[success message] evs] s']
  end.
  do 3 eexists.
  exists (if success
          then MC.set_progress 100 (MC.set_status "completed" j)
          else MC.set_error_message message (MC.set_status "failed" j)).
  split; [reflexivity|].
  assert (Hjobs : forall self0,
             MC.jobs self0
             = MC.update_job (MC.current_job_index self)
                 (if success
                  then fun j0 => MC.set_progress 100 (MC.set_status "completed" j0)
                  else fun j0 => MC.set_error_message message (MC.set_status "failed" j0))
                 (MC.update_job (MC.current_job_index self)
                                (MC.set_status "processing") (MC.jobs self)) ->
             MC.jobs self0
             = MC.update_job (MC.current_job_index self)
                 (fun _ => if success
                           then MC.set_progress 100 (MC.set_status "completed" j)
                           else MC.set_error_message message (MC.set_status "failed" j))
                 (MC.jobs self)).
  { intros self0 ->. rewrite update_job_twice. rewrite (update_job_at _ _ _ _ Hj).
    destruct success; reflexivity. }
  repeat split.
  - apply Hjobs. destruct (negb _); mc_fields; reflexivity.
  - destruct success; [left|right]; reflexivity.
  - destruct (negb _); mc_fields; reflexivity.
  - destruct (negb _) eqn:Hmore; mc_fields.
    + apply negb_true_iff in Hmore. now rewrite Hmore.
    + apply negb_false_iff in Hmore. now rewrite Hc, Hmore.
Qed.

Lemma engine_attempts_app l1 l2 :
  MC.engine_attempts (l1 ++ l2) = (MC.engine_attempts l1 ++ MC.engine_attempts l2)%list.
Proof.
  induction l1 as [|[m|p m|c o] l1 IH]; simpl; [reflexivity|exact IH|exact IH|].
  now rewrite IH.
Qed.

Lemma attempts_say self m :
  MC.engine_attempts (MC.log (MC.say self m)) = MC.engine_attempts (MC.log self).
Proof.
  unfold MC.say. destruct (MC.status_callback self); [|reflexivity].
  simpl. rewrite engine_attempts_app. apply app_nil_r.
Qed.

Lemma attempts_tell self p m :
  MC.engine_attempts (MC.log (MC.tell_progress self p m)) = MC.engine_attempts (MC.log self).
Proof.
  unfold MC.tell_progress. destruct (MC.progress_callback self); [|reflexivity].
  simpl. rewrite engine_attempts_app. apply app_nil_r.
Qed.

Lemma attempts_stop self :
  MC.engine_attempts (MC.log (MC.stop_conversion self)) = MC.engine_attempts (MC.log self).
Proof.
  unfold MC.stop_conversion. destruct (MC.is_converting self); [|reflexivity].
  now rewrite attempts_tell, attempts_say.
Qed.

(** C7. In a run of three jobs, after the first job has been processed and
    [stop_conversion] has been called, however many times [process_next_job]
    is called afterwards: the first job keeps the status it ended with
    (completed or failed), the second and third jobs are still pending, the
    run is halted ([is_converting] is false), and no engine has been called
    since the first job. *)
Theorem stop_between_jobs_halts_run W self s j1 j2 j3 r self1 s1 :
  MC.jobs self = [j1; j2; j3] ->
  MC.status j2 = "pending" ->
  MC.status j3 = "pending" ->
  MC.is_converting self = true ->
  MC.current_job_index self = 0%nat ->
  MC.process_next_job W self s = (r, self1, s1) ->
  exists j1',
    (MC.status j1' = "completed" \/ MC.status j1' = "failed")
    /\ forall n,
        let final := fst (MC.run_ops W (repeat MC.OpProcess n) (MC.stop_conversion self1, s1)) in
        MC.jobs final = [j1'; j2; j3]
        /\ map MC.status (MC.jobs final) = [MC.status j1'; "pending"; "pending"]
        /\ MC.is_converting final = false
        /\ MC.engine_attempts (MC.log final) = MC.engine_attempts (MC.log self1).
Proof.
  intros Hjobs H2 H3 Hc Hi Hp.
  destruct (process_next_job_active W self s j1 Hc) as (r' & self' & s' & j1' & Hp' & Hj & Hst & _).
  { now rewrite Hjobs, Hi. }
  rewrite Hp in Hp'. injection Hp' as <- <- <-.
  rewrite Hjobs, Hi in Hj. simpl in Hj.
  exists j1'. split; [exact Hst|]. intros n final. subst final.
  rewrite run_ops_process_idle by apply converting_stop.
  cbn [fst]. rewrite jobs_stop, Hj, converting_stop, attempts_stop.
  simpl. rewrite H2, H3. repeat split.
Qed.

Lemma stop_between_jobs_halts_run_witness :
  let W := Sample.all_good in
  let fs := ["a.docx"; "b.txt"; "c.docx"] in
  let st := MC.start_conversion W (MC.init W fs) fs fs "out" "pdf" "Média" in
  let p := MC.process_next_job W (snd (fst st)) (snd st) in
  map MC.status
      (MC.jobs (fst (MC.run_ops W (repeat MC.OpProcess 5)
                                (MC.stop_conversion (snd (fst p)), snd p))))
  = ["completed"; "pending"; "pending"].
Proof.
  intros W fs st p.
  destruct (stop_between_jobs_halts_run
              W (snd (fst st)) (snd st)
              (MC.new_job "a.docx" "out/a.pdf" "pdf" "Média")
              (MC.new_job "b.txt" "out/b.pdf" "pdf" "Média")
              (MC.new_job "c.docx" "out/c.pdf" "pdf" "Média")
              (fst (fst p)) (snd (fst p)) (snd p)
              eq_refl eq_refl eq_refl eq_refl eq_refl eq_refl)
    as (j1' & _ & H).
  destruct (H 5%nat) as (Hj & _ & _ & _).
  destruct (H 0%nat) as (Hj0 & _ & _ & _).
  rewrite Hj. rewrite <- Hj0. reflexivity.
Defined.

(** ** The status invariant of the job list *)

Lemma jobs_ok_update i f js :
  (forall j, In (MC.status (f j)) MC.statuses) ->
  MC.jobs_ok js -> MC.jobs_ok (MC.update_job i f js).
Proof.
  unfold MC.jobs_ok. intros Hf H. revert i.
  induction H as [|j js Hj H IH]; intros [|i]; cbn [MC.update_job];
    constructor; auto.
Qed.

Lemma jobs_ok_add W self s p d f q :
  MC.jobs_ok (MC.jobs self) ->
  MC.jobs_ok (MC.jobs (snd (MC.add_conversion_job W self s p d f q))).
Proof.
  intros H. unfold MC.add_conversion_job.
  destruct (negb _); [exact H|].
  destruct (String.eqb _ _); [exact H|].
  destruct (negb _); [exact H|].
  simpl. apply Forall_app. split; [exact H|].
  constructor; [|constructor]. simpl. now left.
Qed.

Lemma jobs_ok_add_all W s d f q file_paths :
  forall self,
    MC.jobs_ok (MC.jobs self) ->
    MC.jobs_ok (MC.jobs (MC.add_all W self s file_paths d f q)).
Proof.
  induction file_paths as [|p rest IH]; intros self H; simpl; [exact H|].
  apply IH. now apply jobs_ok_add.
Qed.

Lemma jobs_ok_clear self :
  MC.jobs_ok (MC.jobs self) -> MC.jobs_ok (MC.jobs (MC.clear_jobs self)).
Proof.
  intros H. unfold MC.clear_jobs. destruct (negb _); [constructor|exact H].
Qed.

Lemma jobs_ok_start W self s file_paths d f q :
  MC.jobs_ok (MC.jobs self) ->
  MC.jobs_ok (MC.jobs (snd (fst (MC.start_conversion W self s file_paths d f q)))).
Proof.
  intros H. unfold MC.start_conversion.
  destruct (MC.is_converting self); [exact H|].
  destruct (MC.validate_conversion_setup W s file_paths d f) as [[is_valid message] s1].
  destruct is_valid; simpl; [|now rewrite jobs_say].
  pose proof (jobs_ok_add_all W s1 d f q file_paths _ (jobs_ok_clear _ H)) as Hall.
  destruct (MC.jobs (MC.add_all W (MC.clear_jobs self) s1 file_paths d f q)) eqn:E;
    simpl; rewrite jobs_say; simpl; rewrite ?E; exact Hall.
Qed.

Lemma jobs_ok_process W self s :
  MC.jobs_ok (MC.jobs self) ->
  MC.jobs_ok (MC.jobs (snd (fst (MC.process_next_job W self s)))).
Proof.
  intros H.
  destruct (MC.is_converting self) eqn:Hc;
    [|now rewrite process_next_job_idle].
  destruct (nth_error (MC.jobs self) (MC.current_job_index self)) as [j|] eqn:Hj.
  - destruct (process_next_job_active W self s j Hc Hj)
      as (r & self' & s' & j' & Hp & Hjobs & Hst & _).
    rewrite Hp. cbn [fst snd]. rewrite Hjobs. apply jobs_ok_update; [|exact H].
    intros _. unfold MC.statuses. simpl. destruct Hst as [-> | ->]; auto.
  - unfold MC.process_next_job. rewrite Hj.
    now destruct (negb _ || _).
Qed.

(** The four counts of [get_conversion_summary] split the job list. *)
Lemma counts_partition js :
  MC.jobs_ok js ->
  length js = (MC.count_status "completed" js + MC.count_status "failed" js
               + MC.count_status "pending" js + MC.count_status "processing" js)%nat.
Proof.
  unfold MC.count_status.
  induction 1 as [|j js Hj H IH]; [reflexivity|].
  unfold MC.statuses in Hj. simpl in Hj.
  simpl. destruct Hj as [<-|[<-|[<-|[<-|[]]]]]; simpl; lia.
Qed.


(** ** A run that names a missing file *)

(** C6, as the code has it. When the second of three files does not exist
    at the time [validate_conversion_setup] looks for the files (after it
    has made sure of the destination directory), [start_conversion] rejects
    the whole run: it returns [False], creates no job and leaves the job
    list, the index and [is_converting] as they were, and no engine is
    called. *)
Theorem start_rejects_run_with_missing_file W self s f1 f2 f3 output_dir tf q :
  path_exists W (snd (makedirs W s output_dir)) f2 = false ->
  exists self' s',
    MC.start_conversion W self s [f1; f2; f3] output_dir tf q = (false, self', s')
    /\ MC.jobs self' = MC.jobs self
    /\ MC.current_job_index self' = MC.current_job_index self
    /\ MC.is_converting self' = MC.is_converting self
    /\ MC.engine_attempts (MC.log self') = MC.engine_attempts (MC.log self).
Proof.
  intros Hmissing. unfold MC.start_conversion.
  destruct (MC.is_converting self) eqn:Hc.
  { exists self, s. rewrite Hc. repeat split. }
  assert (Hv : exists message s1,
             MC.validate_conversion_setup W s [f1; f2; f3] output_dir tf
             = ((false, message), s1)).
  { unfold MC.validate_conversion_setup.
    destruct (_ || _); [eauto|].
    destruct (makedirs W s output_dir) as [[e|] s1]; [eauto|].
    simpl in Hmissing. cbn [filter]. rewrite Hmissing. cbn [negb].
    destruct (negb (path_exists W s1 f1)); eauto. }
  destruct Hv as (message & s1 & ->). cbn [negb].
  exists (MC.say self ("Erro: " ++ message)), s1.
  rewrite jobs_say, index_say, converting_say, attempts_say, Hc. repeat split.
Qed.

Lemma start_rejects_run_with_missing_file_witness :
  let W := Sample.all_good in
  let fs := ["a.docx"; "c.docx"] in
  exists self' s',
    MC.start_conversion W (MC.init W fs) fs ["a.docx"; "b.docx"; "c.docx"] "out" "pdf" "Média"
    = (false, self', s')
    /\ MC.jobs self' = []
    /\ MC.current_job_index self' = 0%nat
    /\ MC.is_converting self' = false
    /\ MC.engine_attempts (MC.log self') = [].
Proof.
  intros W fs.
  exact (start_rejects_run_with_missing_file
           W (MC.init W fs) fs "a.docx" "b.docx" "c.docx" "out" "pdf" "Média" eq_refl).
Defined.

(** C6 as stated fails. With a.docx and c.docx present and convertible (run
    alone, both complete) and b.docx missing, starting the three files is
    refused; whatever is processed afterwards, there is no job, so the
    summary never shows two completed and one failed. *)
Lemma run_with_missing_file_does_not_proceed :
  let W := Sample.all_good in
  let fs := ["a.docx"; "c.docx"] in
  let two := MC.start_conversion W (MC.init W fs) fs ["a.docx"; "c.docx"] "out" "pdf" "Média" in
  let three :=
    MC.start_conversion W (MC.init W fs) fs ["a.docx"; "b.docx"; "c.docx"] "out" "pdf" "Média" in
  MC.completed
    (MC.get_conversion_summary
       (fst (MC.run_ops W [MC.OpProcess; MC.OpProcess] (snd (fst two), snd two)))) = 2%nat
  /\ fst (fst three) = false
  /\ forall n,
      let final := fst (MC.run_ops W (repeat MC.OpProcess n) (snd (fst three), snd three)) in
      MC.jobs final = []
      /\ MC.completed (MC.get_conversion_summary final) = 0%nat
      /\ MC.failed (MC.get_conversion_summary final) = 0%nat.
Proof.
  intros W fs two three. split; [reflexivity|]. split; [reflexivity|].
  intros n final. subst final.
  rewrite run_ops_process_idle by reflexivity. repeat split.
Qed.

(** * Further properties of the two classes and of their callers *)

(** ** [DocumentConverter]: what [convert] does besides the claims *)

Lemma try_engines_success W cb ip op ie tf q step total :
  forall engines i cp le s res evs s',
    DC.try_engines W cb ip op ie tf q step total i cp le s engines = (res, evs, s') ->
    fst res = true ->
    exists pre call m, DC.attempts evs = (pre ++ [(call, Returns true m)])%list.
Proof.
  induction engines as [|e rest IH]; intros i cp le s res evs s' H Hres.
  - simpl in H. injection H as <- <- <-. discriminate.
  - apply try_engines_step in H. cbv zeta in H.
    destruct H as [(m & Ho & _ & Hatt & _) | (_ & evs2 & Hrec & Hatt)].
    + exists [], (DC.engine_call e ip op ie tf q), m. rewrite Hatt, Ho. reflexivity.
    + destruct (IH _ _ _ _ _ _ _ Hrec Hres) as (pre & call & m & Hpre).
      eexists (_ :: pre), call, m. rewrite Hatt, Hpre. reflexivity.
Qed.

(** The result of [convert] is [True] exactly when the last engine call it
    made returned success; and a [convert] that made no engine call left the
    environment as it found it. *)
Theorem convert_succeeds_only_through_an_engine W dc s ip op tf q cb :
  let r := DC.convert W dc s ip op tf q cb in
  (fst (fst (fst r)) = true
   <-> exists pre call m,
        DC.attempts (snd (fst r)) = (pre ++ [(call, Returns true m)])%list)
  /\ (DC.attempts (snd (fst r)) = [] -> snd r = s).
Proof.
  intros r. destruct r as [[res evs] s'] eqn:Hr. subst r. cbn [fst snd].
  destruct (convert_inv _ _ _ _ _ _ _ _ _ _ _ Hr)
    as [(Hnone & Hres & Hs & _) | (Hne & _ & _ & _ & evs2 & Hloop & ->)].
  - split; [|intros _; exact Hs]. rewrite Hres, Hnone. split; [discriminate|].
    intros (pre & call & m & H). destruct pre; discriminate.
  - rewrite attempts_app, attempts_report.
    change ([] ++ DC.attempts evs2)%list with (DC.attempts evs2).
    split.
    + split.
      * intros Hres. eapply try_engines_success; eassumption.
      * intros (pre & call & m & Hatt).
        destruct (try_engines_attempts _ _ _ _ _ _ _ _ _ _ _ _ _ _ _ _ _ Hloop)
          as (_ & Hsucc & _).
        destruct (Hsucc _ _ _ _ Hatt) as (_ & _ & ->). reflexivity.
    + intros Hnil.
      destruct (try_engines_attempts _ _ _ _ _ _ _ _ _ _ _ _ _ _ _ _ _ Hloop)
        as ([rest Hrest] & _ & Hfail).
      rewrite Hnil in Hfail. destruct (Hfail (Forall_nil _)) as [Heng _].
      simpl in Heng. symmetry in Heng. contradiction.
Qed.

Lemma str_in_In x l : str_in x l = true <-> In x l.
Proof.
  unfold str_in. rewrite existsb_exists. split.
  - intros (y & Hy & E). apply String.eqb_eq in E. now subst.
  - intros H. exists x. split; [exact H|apply String.eqb_refl].
Qed.

Lemma sorted_prefix (l1 l2 : list nat) :
  StronglySorted lt (l1 ++ l2) -> StronglySorted lt l1.
Proof.
  induction l1 as [|x l1 IH]; simpl; intros H; [constructor|].
  inversion H as [|? ? Hs Hx]; subst. constructor; [now apply IH|].
  apply Forall_app in Hx. tauto.
Qed.

Lemma engines_to_try_by_priority W s0 ie tf :
  StronglySorted lt (map DC.priority (DC.engines_to_try (DC.init W s0) ie tf)).
Proof.
  assert (Hinf : StronglySorted lt
                   (map DC.priority
                        (if DC._can_use_onlyoffice ie tf
                         then [OnlyOfficeEngine; LibreOfficeEngine]
                         else if DC._can_use_libreoffice ie tf
                              then [LibreOfficeEngine]
                              else if DC._can_use_fallback ie tf
                                   then [FallbackEngine] else []))).
  { destruct (DC._can_use_onlyoffice ie tf);
      [|destruct (DC._can_use_libreoffice ie tf);
        [|destruct (DC._can_use_fallback ie tf)]];
      simpl; repeat constructor. }
  unfold DC.engines_to_try.
  destruct (dict_get_init W s0 (ie, tf)) as [H|[H|[H|H]]]; rewrite H; clear H;
    [exact Hinf| | |];
    destruct (engine_available W s0 OnlyOfficeEngine);
    destruct (engine_available W s0 LibreOfficeEngine); simpl;
    try exact Hinf; repeat constructor.
Qed.

(** In one [convert] call the engines are called in the fixed order
    OnlyOffice, LibreOffice, fallback (each at most once, some possibly left
    out), whether the candidates come from the matrix or are inferred; so a
    call makes at most three engine calls. *)
Theorem engines_called_in_priority_order W s0 s ip op tf q cb :
  let evs := snd (fst (DC.convert W (DC.init W s0) s ip op tf q cb)) in
  StronglySorted lt (map DC.priority (DC.engines_of (DC.attempts evs)))
  /\ (length (DC.attempts evs) <= 3)%nat.
Proof.
  intros evs.
  assert (Hs : StronglySorted lt (map DC.priority (DC.engines_of (DC.attempts evs)))).
  { subst evs.
    destruct (DC.convert W (DC.init W s0) s ip op tf q cb) as [[res evs] s'] eqn:Hr.
    cbn [fst snd].
    destruct (convert_inv _ _ _ _ _ _ _ _ _ _ _ Hr)
      as [(Hnone & _) | (_ & _ & _ & _ & evs2 & Hloop & ->)].
    - rewrite Hnone. constructor.
    - rewrite attempts_app, attempts_report.
      change ([] ++ DC.attempts evs2)%list with (DC.attempts evs2).
      destruct (try_engines_attempts _ _ _ _ _ _ _ _ _ _ _ _ _ _ _ _ _ Hloop)
        as ([rest Hrest] & _ & _).
      pose proof (engines_to_try_by_priority W s0 (DC.extension W ip) tf) as Hp.
      rewrite Hrest, map_app in Hp. now apply sorted_prefix in Hp. }
  split; [exact Hs|].
  unfold DC.engines_of in Hs. rewrite map_map in Hs.
  destruct (DC.attempts evs) as [|a [|b [|c [|d l]]]]; simpl; try lia.
  exfalso. simpl in Hs.
  inversion Hs as [|? ? Hs1 H1]; subst.
  inversion Hs1 as [|? ? Hs2 H2]; subst.
  inversion Hs2 as [|? ? Hs3 H3]; subst.
  inversion H1 as [|? ? Hab H1']; subst. inversion H2 as [|? ? Hbc H2']; subst.
  inversion H3 as [|? ? Hcd H3']; subst.
  assert (DC.priority (engine_of (fst d)) <= 2)%nat
    by (destruct (engine_of (fst d)); simpl; lia).
  lia.
Qed.

Lemma lowercase_members (l : list string) x :
  Forall (fun y => lower y = y) l -> str_in x l = true -> lower x = x.
Proof.
  intros Hl Hx. apply str_in_In in Hx. rewrite Forall_forall in Hl. now apply Hl.
Qed.

Lemma engines_to_try_needs_lowercase_target W s0 ie tf :
  lower tf <> tf -> DC.engines_to_try (DC.init W s0) ie tf = [].
Proof.
  intros Hup.
  assert (Hcap : forall e, DC.can_use e ie tf = false).
  { intros e. destruct (DC.can_use e ie tf) eqn:E; [|reflexivity].
    exfalso. apply Hup. unfold DC.can_use in E. apply andb_true_iff in E.
    destruct E as [_ E]. revert E. apply lowercase_members.
    destruct e; simpl; repeat constructor. }
  unfold DC.engines_to_try, DC._can_use_onlyoffice, DC._can_use_libreoffice,
    DC._can_use_fallback.
  rewrite !Hcap.
  destruct (DC.dict_get (ie, tf) (DC.conversion_methods (DC.init W s0)))
    as [[|e l]|] eqn:Hget; try reflexivity.
  exfalso. apply Hup. apply dict_get_In in Hget.
  unfold DC.init, DC.conversion_methods in Hget. simpl in Hget.
  repeat (destruct Hget as [Hget|Hget];
          [injection Hget as _ Htf _; now rewrite <- Htf|]).
  contradiction.
Qed.

(** [convert] looks the target format up as it is written: for a target
    format that is not all in lower case (such as PDF), whatever the input
    and the engines, no engine is called, the result is failure and the
    environment is untouched, although [is_supported_output] and
    [can_convert] compare in lower case and may accept it. *)
Theorem convert_needs_lowercase_target W s0 s ip op tf q cb :
  lower tf <> tf ->
  let r := DC.convert W (DC.init W s0) s ip op tf q cb in
  fst (fst (fst r)) = false /\ DC.attempts (snd (fst r)) = [] /\ snd r = s.
Proof.
  intros Hup r. destruct r as [[res evs] s'] eqn:Hr. subst r. cbn [fst snd].
  destruct (convert_inv _ _ _ _ _ _ _ _ _ _ _ Hr)
    as [(Hnone & Hres & Hs & _) | (Hne & _)].
  - auto.
  - exfalso. apply Hne. now apply engines_to_try_needs_lowercase_target.
Qed.

Lemma convert_needs_lowercase_target_witness :
  let W := Sample.all_good in
  let r := DC.convert W (DC.init W []) ["a.docx"] "a.docx" "out/a.pdf" "PDF" "media" true in
  DC.is_supported_output "PDF" = true
  /\ DC.can_convert "docx" "PDF" = true
  /\ fst (fst (fst r)) = false /\ DC.attempts (snd (fst r)) = [] /\ snd r = ["a.docx"].
Proof.
  intros W r. split; [reflexivity|]. split; [reflexivity|].
  apply (convert_needs_lowercase_target
           W [] ["a.docx"] "a.docx" "out/a.pdf" "PDF" "media" true).
  discriminate.
Defined.

Lemma can_use_office_agree i o :
  DC.can_use LibreOfficeEngine i o = DC.can_use OnlyOfficeEngine i o.
Proof.
  unfold DC.can_use. f_equal; apply eq_true_iff_eq; rewrite !str_in_In;
    simpl; tauto.
Qed.

(** The capability tables of OnlyOffice and LibreOffice accept the same
    pairs, so the [elif self._can_use_libreoffice] branch of [convert] is
    never taken: for a pair without a non-empty matrix entry, the inferred
    candidates are OnlyOffice then LibreOffice, or the fallback engine alone,
    or none. *)
Theorem inferred_candidates W s0 ie tf :
  DC.can_use LibreOfficeEngine ie tf = DC.can_use OnlyOfficeEngine ie tf
  /\ match DC.dict_get (ie, tf) (DC.conversion_methods (DC.init W s0)) with
     | Some (_ :: _) => True
     | _ =>
         DC.engines_to_try (DC.init W s0) ie tf = [OnlyOfficeEngine; LibreOfficeEngine]
         \/ DC.engines_to_try (DC.init W s0) ie tf = [FallbackEngine]
         \/ DC.engines_to_try (DC.init W s0) ie tf = []
     end.
Proof.
  split; [apply can_use_office_agree|].
  unfold DC.engines_to_try, DC._can_use_onlyoffice, DC._can_use_libreoffice,
    DC._can_use_fallback.
  rewrite can_use_office_agree.
  destruct (DC.dict_get (ie, tf) (DC.conversion_methods (DC.init W s0))) as [[|e l]|];
    try exact I;
    destruct (DC.can_use OnlyOfficeEngine ie tf); auto;
    destruct (DC.can_use FallbackEngine ie tf); auto.
Qed.

(** [get_conversion_strategy] against what [convert] tries. For a pair with
    a non-empty matrix entry both give the same engines in the same order;
    for a pair with no entry, the engines [convert] tries are the first ones
    of the strategy; for a pair whose entry is empty (no office engine was
    available at construction) the strategy is empty, whatever [convert]
    then infers. *)
Theorem strategy_lists_what_convert_tries W s0 ie tf :
  let dc := DC.init W s0 in
  let tried := map (fun e => lower (engine_name e)) (DC.engines_to_try dc ie tf) in
  let listed := map DC.strategy_engine (DC.get_conversion_strategy dc ie tf) in
  match DC.dict_get (ie, tf) (DC.conversion_methods dc) with
  | Some [] => listed = []
  | Some (_ :: _) => listed = tried
  | None => exists rest, listed = (tried ++ rest)%list
  end.
Proof.
  intros dc tried listed. subst tried listed.
  unfold DC.get_conversion_strategy, DC.engines_to_try.
  destruct (DC.dict_get (ie, tf) (DC.conversion_methods dc)) as [[|e l]|].
  - reflexivity.
  - generalize (e :: l). intros l'.
    induction l' as [|x l' IH]; [reflexivity|].
    cbn [flat_map map]. rewrite map_app, IH. now destruct x.
  - unfold DC._can_use_onlyoffice, DC._can_use_libreoffice, DC._can_use_fallback.
    rewrite can_use_office_agree.
    destruct (DC.can_use OnlyOfficeEngine ie tf);
      destruct (DC.can_use FallbackEngine ie tf); simpl; eauto.
Qed.

(** What an engine's own [can_convert] accepts, the converter's capability
    table for that engine accepts too (on the lower-cased formats, as
    [can_convert] lower-cases them): the table never rules out a conversion
    the engine declares. *)
Theorem engine_can_convert_is_declared e i o :
  engine_can_convert e i o = Some true ->
  DC.can_use e (lower i) (lower o) = true.
Proof.
  destruct e; simpl; intros [= H].
  - exact H.
  - unfold Fallback.can_convert in H. apply existsb_exists in H.
    destruct H as ([ki ko] & Hin & E). apply andb_true_iff in E.
    destruct E as [E1 E2]. apply String.eqb_eq in E1. apply String.eqb_eq in E2.
    simpl in E1, E2. rewrite E1, E2.
    unfold Fallback.conversion_matrix in Hin. simpl in Hin.
    repeat (destruct Hin as [Hin|Hin]; [injection Hin as <- <-; reflexivity|]).
    contradiction.
Qed.

Lemma engine_can_convert_is_declared_witness :
  DC.can_use FallbackEngine "rtf" "docx" = true.
Proof.
  exact (engine_can_convert_is_declared FallbackEngine "RTF" "Docx" eq_refl).
Defined.

(** [_get_document_type] knows exactly the supported input extensions: it
    answers 'unknown' for an extension if and only if [is_supported_input]
    rejects it. *)
Theorem document_type_known_iff_supported_input ext :
  String.eqb (DC._get_document_type ext) "unknown" = negb (str_in ext DC.supported_input).
Proof.
  unfold DC._get_document_type, DC.type_mapping, DC.supported_input, str_in.
  cbn [DC.str_get existsb].
  repeat (destruct (String.eqb ext _); [reflexivity|]).
  reflexivity.
Qed.

(** ** [MainConverter]: file types, validation and the start of a run *)

Lemma lookup_In {V : Type} key (d : list (string * V)) v :
  MC.lookup key d = Some v -> In (key, v) d.
Proof.
  induction d as [|[k w] d IH]; simpl; [discriminate|].
  destruct (String.eqb key k) eqn:E; [|auto].
  intros [= ->]. left. apply String.eqb_eq in E. now subst.
Qed.

(** [detect_file_type] answers one of video, audio, image, document and
    unknown, and [get_converter_for_type] has a converter for every answer
    but unknown: the branch of [process_next_job] for a missing converter is
    never taken. *)
Theorem detected_type_has_a_converter W s file_path :
  In (MC.detect_file_type W s file_path) ["video"; "audio"; "image"; "document"; "unknown"]
  /\ (MC.get_converter_for_type (MC.detect_file_type W s file_path) = None
      <-> MC.detect_file_type W s file_path = "unknown").
Proof.
  assert (H : In (MC.detect_file_type W s file_path)
                 ["video"; "audio"; "image"; "document"; "unknown"]).
  { unfold MC.detect_file_type.
    destruct (MC.lookup _ MC.extension_mapping) as [t|] eqn:E.
    - apply lookup_In in E. unfold MC.extension_mapping in E. simpl in E.
      repeat (destruct E as [E|E]; [injection E as _ <-; simpl; tauto|]).
      contradiction.
    - destruct (filetype_guess W s file_path); simpl; try tauto.
      repeat (match goal with
              | |- context [if ?c then _ else _] => destruct c
              end; simpl; try tauto). }
  split; [exact H|].
  simpl in H.
  destruct H as [<-|[<-|[<-|[<-|[<-|[]]]]]]; simpl; split;
    (discriminate || reflexivity || auto).
Qed.

Lemma classify_convertible W s tf file_paths :
  fst (fst (MC.classify W s tf file_paths)) = filter (MC.convertible W s tf) file_paths.
Proof.
  induction file_paths as [|f rest IH]; [reflexivity|].
  cbn [MC.classify filter].
  destruct (MC.classify W s tf rest) as [[c u] sf]. cbn [fst] in IH. rewrite <- IH.
  unfold MC.convertible.
  destruct (String.eqb (MC.detect_file_type W s f) "unknown"); [reflexivity|].
  cbn [negb andb].
  destruct (String.eqb (lower (DC.extension W f)) (lower tf)) eqn:E.
  - unfold MC.is_format_supported. rewrite E. reflexivity.
  - destruct (MC.is_format_supported (DC.extension W f) tf); reflexivity.
Qed.

Lemma validate_true_iff W s file_paths output_dir tf :
  let s1 := snd (makedirs W s output_dir) in
  fst (fst (MC.validate_conversion_setup W s file_paths output_dir tf)) = true
  <-> (file_paths <> []
       /\ output_dir <> EmptyString
       /\ output_dir <> "Selecione uma pasta de destino"
       /\ fst (makedirs W s output_dir) = None
       /\ Forall (fun f => path_exists W s1 f = true) file_paths
       /\ filter (MC.convertible W s1 tf) file_paths <> []).
Proof.
  intros s1. subst s1. unfold MC.validate_conversion_setup.
  destruct file_paths as [|f0 rest]; [simpl; intuition congruence|].
  set (fps := f0 :: rest).
  destruct (String.eqb output_dir EmptyString) eqn:E1.
  { apply String.eqb_eq in E1. cbn [orb fst]. intuition congruence. }
  destruct (String.eqb output_dir "Selecione uma pasta de destino") eqn:E2.
  { apply String.eqb_eq in E2. cbn [orb fst]. intuition congruence. }
  apply String.eqb_neq in E1. apply String.eqb_neq in E2. cbn [orb].
  destruct (makedirs W s output_dir) as [[e|] s1]; cbn [fst snd].
  { intuition congruence. }
  assert (Hmiss : filter (fun f => negb (path_exists W s1 f)) fps = []
                  <-> Forall (fun f => path_exists W s1 f = true) fps).
  { generalize fps. intros l. induction l as [|x l IH]; simpl.
    - split; constructor.
    - destruct (path_exists W s1 x) eqn:Ex; simpl.
      + rewrite IH. split; [now constructor|now inversion 1].
      + split; [discriminate|]. inversion 1. congruence. }
  destruct (filter (fun f => negb (path_exists W s1 f)) fps) as [|m ms] eqn:Em.
  - pose proof (classify_convertible W s1 tf fps) as Hc.
    destruct (MC.classify W s1 tf fps) as [[c u] sf]. cbn [fst] in Hc. subst c.
    assert (Hall : Forall (fun f => path_exists W s1 f = true) fps)
      by now apply Hmiss.
    destruct (filter (MC.convertible W s1 tf) fps) as [|c cs].
    + destruct sf, u; cbn [fst]; (split; [discriminate|]);
        intros (_ & _ & _ & _ & _ & H); now elim H.
    + repeat match goal with
             | |- context [match ?l with [] => _ | _ :: _ => _ end] => destruct l
             end; cbn [fst]; (split; [intros _|reflexivity]);
        (repeat split; try assumption; try discriminate).
  - cbn [fst]. split; [discriminate|].
    intros (_ & _ & _ & _ & Hall & _). apply Hmiss in Hall. discriminate.
Qed.

(** When [validate_conversion_setup] accepts: exactly when there is a file,
    the destination is set, the destination directory could be made, every
    file exists and at least one file is convertible. *)
Theorem validation_accepts_iff W s file_paths output_dir tf :
  let s1 := snd (makedirs W s output_dir) in
  fst (fst (MC.validate_conversion_setup W s file_paths output_dir tf)) = true
  <-> (file_paths <> []
       /\ output_dir <> EmptyString
       /\ output_dir <> "Selecione uma pasta de destino"
       /\ fst (makedirs W s output_dir) = None
       /\ Forall (fun f => path_exists W s1 f = true) file_paths
       /\ filter (MC.convertible W s1 tf) file_paths <> []).
Proof. apply validate_true_iff. Qed.

Lemma validate_true_env W s file_paths output_dir tf :
  fst (fst (MC.validate_conversion_setup W s file_paths output_dir tf)) = true ->
  snd (MC.validate_conversion_setup W s file_paths output_dir tf)
  = snd (makedirs W s output_dir).
Proof.
  unfold MC.validate_conversion_setup.
  destruct file_paths as [|f0 rest]; [discriminate|].
  destruct (_ || _); [discriminate|].
  destruct (makedirs W s output_dir) as [[e|] s1]; [discriminate|].
  destruct (filter _ (f0 :: rest)); [|discriminate].
  destruct (MC.classify W s1 tf (f0 :: rest)) as [[c u] sf].
  repeat match goal with
         | |- context [match ?l with [] => _ | _ :: _ => _ end] => destruct l
         end; reflexivity.
Qed.

Lemma add_all_jobs W s output_dir tf q file_paths :
  forall self,
    Forall (fun f => path_exists W s f = true) file_paths ->
    let self' := MC.add_all W self s file_paths output_dir tf q in
    MC.jobs self'
    = (MC.jobs self
       ++ map (MC.job_for W output_dir tf q) (filter (MC.convertible W s tf) file_paths))%list
    /\ MC.current_job_index self' = MC.current_job_index self
    /\ MC.is_converting self' = MC.is_converting self.
Proof.
  induction file_paths as [|f rest IH]; intros self Hall self'; subst self'.
  - simpl. now rewrite app_nil_r.
  - inversion Hall as [|? ? Hf Hrest]; subst.
    cbn [MC.add_all filter].
    destruct (IH (snd (MC.add_conversion_job W self s f output_dir tf q)) Hrest)
      as (-> & -> & ->).
    unfold MC.add_conversion_job, MC.convertible. rewrite Hf. cbn [negb].
    destruct (String.eqb (MC.detect_file_type W s f) "unknown"); cbn [negb andb snd];
      [auto|].
    destruct (MC.is_format_supported (DC.extension W f) tf); cbn [negb snd]; [|auto].
    cbn [MC.jobs MC.with_jobs MC.current_job_index MC.is_converting map].
    rewrite <- app_assoc. auto.
Qed.

(** [start_conversion], when no run is active, succeeds exactly when
    [validate_conversion_setup] accepts (the branch for an empty job list is
    never taken). On success the job list is replaced by one pending job per
    convertible file, in the order of the file list, the index is 0 and the
    run is active; on failure the job list, the index and [is_converting]
    are as before. *)
Theorem start_creates_the_convertible_jobs W self s file_paths output_dir tf q :
  MC.is_converting self = false ->
  let v := MC.validate_conversion_setup W s file_paths output_dir tf in
  let r := MC.start_conversion W self s file_paths output_dir tf q in
  fst (fst r) = fst (fst v)
  /\ snd r = snd v
  /\ if fst (fst v)
     then MC.jobs (snd (fst r))
          = map (MC.job_for W output_dir tf q)
                (filter (MC.convertible W (snd v) tf) file_paths)
          /\ MC.jobs (snd (fst r)) <> []
          /\ MC.current_job_index (snd (fst r)) = 0%nat
          /\ MC.is_converting (snd (fst r)) = true
     else MC.jobs (snd (fst r)) = MC.jobs self
          /\ MC.current_job_index (snd (fst r)) = MC.current_job_index self
          /\ MC.is_converting (snd (fst r)) = false.
Proof.
  intros Hc v r. subst v r. unfold MC.start_conversion. rewrite Hc.
  pose proof (validate_true_iff W s file_paths output_dir tf) as Hiff.
  pose proof (validate_true_env W s file_paths output_dir tf) as Henv.
  destruct (MC.validate_conversion_setup W s file_paths output_dir tf)
    as [[ok msg] s1].
  cbn [fst snd] in *. destruct ok; cbn [negb].
  - destruct (proj1 Hiff eq_refl) as (_ & _ & _ & _ & Hall & Hne).
    rewrite <- (Henv eq_refl) in Hall, Hne.
    destruct (add_all_jobs W s1 output_dir tf q file_paths (MC.clear_jobs self) Hall)
      as (Hjobs & _ & _).
    assert (Hclear : MC.jobs (MC.clear_jobs self) = []).
    { unfold MC.clear_jobs. now rewrite Hc. }
    rewrite Hclear in Hjobs. cbn [app] in Hjobs.
    destruct (MC.jobs (MC.add_all W (MC.clear_jobs self) s1 file_paths output_dir tf q))
      as [|j js] eqn:Ej.
    + exfalso. destruct (filter (MC.convertible W s1 tf) file_paths);
        [now apply Hne|discriminate].
    + cbn [fst snd]. rewrite jobs_say, index_say, converting_say.
      cbn [MC.jobs MC.with_index MC.with_converting MC.current_job_index MC.is_converting].
      rewrite Ej. repeat split; try assumption. discriminate.
  - cbn [fst snd]. now rewrite jobs_say, index_say, converting_say.
Qed.

Lemma start_creates_the_convertible_jobs_witness :
  let W := Sample.all_good in
  let fs := ["a.docx"; "n.pdf"; "v.xyz"; "c.txt"] in
  let r := MC.start_conversion W (MC.init W fs) fs fs "out" "pdf" "Alta" in
  fst (fst r) = true
  /\ MC.jobs (snd (fst r))
     = [MC.new_job "a.docx" "out/a.pdf" "pdf" "Alta";
        MC.new_job "c.txt" "out/c.pdf" "pdf" "Alta"].
Proof.
  intros W fs r.
  destruct (start_creates_the_convertible_jobs
              W (MC.init W fs) fs fs "out" "pdf" "Alta" eq_refl)
    as (Hok & _ & Hjobs).
  split; [exact Hok|]. exact (proj1 Hjobs).
Defined.

(** ** [MainConverter]: processing the jobs of a run *)

Lemma dc_say self m : MC.document_converter (MC.say self m) = MC.document_converter self.
Proof. unfold MC.say. now destruct (MC.status_callback self). Qed.

Lemma dc_tell self p m :
  MC.document_converter (MC.tell_progress self p m) = MC.document_converter self.
Proof. unfold MC.tell_progress. now destruct (MC.progress_callback self). Qed.

Lemma dc_finish self :
  MC.document_converter (MC.finish_conversion self) = MC.document_converter self.
Proof.
  unfold MC.finish_conversion. rewrite dc_tell.
  destruct (_ =? _)%nat; now rewrite dc_say.
Qed.

Lemma attempts_finish self :
  MC.engine_attempts (MC.log (MC.finish_conversion self)) = MC.engine_attempts (MC.log self).
Proof.
  unfold MC.finish_conversion. rewrite attempts_tell.
  destruct (_ =? _)%nat; now rewrite attempts_say.
Qed.

Lemma attempts_relay self evs :
  MC.engine_attempts (flat_map (MC.relay self) evs) = DC.attempts evs.
Proof.
  induction evs as [|[p m|c o] evs IH]; simpl; [reflexivity| |now rewrite IH].
  rewrite engine_attempts_app, IH. unfold MC.progress_update.
  now destruct (MC.progress_callback self).
Qed.

(** The outcome of the current job depends on the object only through its
    document converter. *)
Lemma run_current_job_indep W self1 self2 s j :
  MC.document_converter self1 = MC.document_converter self2 ->
  fst (fst (MC.run_current_job W self1 s j)) = fst (fst (MC.run_current_job W self2 s j))
  /\ snd (MC.run_current_job W self1 s j) = snd (MC.run_current_job W self2 s j)
  /\ MC.engine_attempts (snd (fst (MC.run_current_job W self1 s j)))
     = MC.engine_attempts (snd (fst (MC.run_current_job W self2 s j))).
Proof.
  intros Hdc. unfold MC.run_current_job. rewrite Hdc.
  destruct (String.eqb _ "unknown"); [auto|].
  destruct (MC.get_converter_for_type _) as [[| | |]|]; auto.
  destruct (negb _); [auto|].
  destruct (DC.convert _ _ _ _ _ _ _ _) as [[r evs] s']. cbn [fst snd].
  now rewrite !attempts_relay.
Qed.

(** One call of [process_next_job] on an active run with a current job. *)
Lemma process_next_job_step W self s j :
  MC.is_converting self = true ->
  nth_error (MC.jobs self) (MC.current_job_index self) = Some j ->
  let R := MC.run_current_job W self s j in
  let success := fst (fst (fst R)) in
  let message := snd (fst (fst R)) in
  let has_more := (MC.current_job_index self + 1 <? length (MC.jobs self))%nat in
  exists self',
    MC.process_next_job W self s = ((success, has_more), self', snd R)
    /\ MC.jobs self'
       = MC.update_job (MC.current_job_index self)
           (fun _ => if success
                     then MC.set_progress 100 (MC.set_status "completed" j)
                     else MC.set_error_message message (MC.set_status "failed" j))
           (MC.jobs self)
    /\ MC.current_job_index self' = (MC.current_job_index self + 1)%nat
    /\ MC.is_converting self' = has_more
    /\ MC.document_converter self' = MC.document_converter self
    /\ MC.engine_attempts (MC.log self')
       = (MC.engine_attempts (MC.log self) ++ MC.engine_attempts (snd (fst R)))%list.
Proof.
  intros Hc Hj R success message has_more.
  unfold MC.process_next_job. rewrite Hc, Hj.
  assert (Hlt : (MC.current_job_index self < length (MC.jobs self))%nat).
  { apply nth_error_Some. congruence. }
  apply Nat.leb_gt in Hlt. rewrite Hlt. cbn [negb orb].
  match goal with
  | |- context [MC.run_current_job W ?x s j] =>
      pose proof (run_current_job_indep W x self s j) as Hind;
      destruct (MC.run_current_job W x s j) as [[[su ms] evs] s'] eqn:Hrun
  end.
  destruct Hind as (H1 & H2 & H3).
  { now rewrite dc_say. }
  fold R in H1, H2, H3. cbn [fst snd] in H1, H2, H3.
  assert (Hsu : su = success) by (subst success; now rewrite <- H1).
  assert (Hms : ms = message) by (subst message; now rewrite <- H1).
  subst su ms s'.
  eexists. split; [|split; [|split; [|split; [|split]]]].
  - f_equal. f_equal. f_equal.
    mc_fields. reflexivity.
  - destruct (negb _); mc_fields;
      rewrite update_job_twice, (update_job_at _ _ _ _ Hj);
      destruct success; reflexivity.
  - destruct (negb _); mc_fields; reflexivity.
  - destruct (negb _) eqn:Hmore; mc_fields.
    + apply negb_true_iff in Hmore. subst has_more. now rewrite Hmore.
    + apply negb_false_iff in Hmore. subst has_more. now rewrite Hc, Hmore.
  - destruct (negb _); rewrite ?dc_finish; cbn [MC.document_converter MC.with_index];
      rewrite dc_tell; cbn [MC.document_converter MC.with_jobs MC.emit];
      rewrite dc_say; reflexivity.
  - destruct (negb _); rewrite ?attempts_finish; cbn [MC.log MC.with_index];
      rewrite attempts_tell; cbn [MC.log MC.with_jobs MC.emit];
      rewrite engine_attempts_app, attempts_say, H3; reflexivity.
Qed.

Lemma nth_error_update_job i f js j :
  nth_error js i = Some j -> nth_error (MC.update_job i f js) i = Some (f j).
Proof.
  revert i. induction js as [|x js IH]; intros [|i]; simpl; try discriminate.
  - now intros [= ->].
  - apply IH.
Qed.

Lemma skipn_update_job i m f js :
  (i < m)%nat -> skipn m (MC.update_job i f js) = skipn m js.
Proof.
  revert i m. induction js as [|x js IH]; intros i m Hlt.
  - now destruct i.
  - destruct m as [|m]; [lia|]. destruct i as [|i]; simpl; [reflexivity|].
    apply IH. lia.
Qed.

Lemma firstn_update_job_finished i j' js :
  MC.finished j' ->
  (i < length js)%nat ->
  Forall MC.finished (firstn i js) ->
  Forall MC.finished (firstn (S i) (MC.update_job i (fun _ => j') js)).
Proof.
  intros Hj'. revert i. induction js as [|x js IH]; intros i Hlt H; simpl in Hlt; [lia|].
  destruct i as [|i].
  - simpl. constructor; [exact Hj'|constructor].
  - cbn [MC.update_job]. rewrite firstn_cons.
    rewrite firstn_cons in H. inversion H; subst.
    constructor; [assumption|]. apply IH; [lia|assumption].
Qed.

Lemma map_input_path_update_job i j j' js :
  nth_error js i = Some j ->
  MC.input_path j' = MC.input_path j ->
  map MC.input_path (MC.update_job i (fun _ => j') js) = map MC.input_path js.
Proof.
  intros Hn He. revert i Hn. induction js as [|x js IH]; intros [|i]; simpl;
    try discriminate.
  - intros [= ->]. now rewrite He.
  - intros Hn. now rewrite (IH _ Hn).
Qed.

(** [k] calls of [process_next_job] on an active run that still has at least
    [k] jobs to go. *)
Lemma process_many W :
  forall k self s,
    MC.is_converting self = true ->
    (MC.current_job_index self + k <= length (MC.jobs self))%nat ->
    Forall MC.finished (firstn (MC.current_job_index self) (MC.jobs self)) ->
    let st := MC.run_ops W (repeat MC.OpProcess k) (self, s) in
    MC.current_job_index (fst st) = (MC.current_job_index self + k)%nat
    /\ (k <> 0%nat ->
        MC.is_converting (fst st)
        = (MC.current_job_index self + k <? length (MC.jobs self))%nat)
    /\ length (MC.jobs (fst st)) = length (MC.jobs self)
    /\ Forall MC.finished (firstn (MC.current_job_index self + k) (MC.jobs (fst st)))
    /\ skipn (MC.current_job_index self + k) (MC.jobs (fst st))
       = skipn (MC.current_job_index self + k) (MC.jobs self)
    /\ map MC.input_path (MC.jobs (fst st)) = map MC.input_path (MC.jobs self)
    /\ MC.document_converter (fst st) = MC.document_converter self.
Proof.
  induction k as [|k IH]; intros self s Hc Hle Hfin st; subst st.
  - unfold MC.run_ops. simpl. rewrite Nat.add_0_r. repeat split; try assumption.
    intros H; now elim H.
  - destruct (nth_error (MC.jobs self) (MC.current_job_index self)) as [j|] eqn:Hj;
      [|apply nth_error_None in Hj; lia].
    destruct (process_next_job_step W self s j Hc Hj)
      as (self1 & Hp & Hjobs & Hidx & Hconv & Hdc & _).
    cbv zeta in Hp, Hjobs, Hconv.
    set (j' := if fst (fst (fst (MC.run_current_job W self s j)))
               then MC.set_progress 100 (MC.set_status "completed" j)
               else MC.set_error_message
                      (snd (fst (fst (MC.run_current_job W self s j))))
                      (MC.set_status "failed" j)) in *.
    assert (Hj' : MC.finished j').
    { subst j'. destruct (fst (fst (fst _))); [left|right]; reflexivity. }
    assert (Hin : MC.input_path j' = MC.input_path j).
    { subst j'. destruct (fst (fst (fst _))); reflexivity. }
    assert (Hrun : MC.run_ops W (repeat MC.OpProcess (S k)) (self, s)
                   = MC.run_ops W (repeat MC.OpProcess k)
                       (self1, snd (MC.run_current_job W self s j))).
    { unfold MC.run_ops. simpl. now rewrite Hp. }
    rewrite Hrun. clear Hrun.
    assert (Hlen1 : length (MC.jobs self1) = length (MC.jobs self)).
    { rewrite Hjobs. apply length_update_job. }
    assert (Hfin1 : Forall MC.finished (firstn (MC.current_job_index self1) (MC.jobs self1))).
    { rewrite Hidx, Hjobs, Nat.add_1_r.
      apply firstn_update_job_finished; try assumption.
      apply nth_error_Some. congruence. }
    destruct k as [|k].
    + unfold MC.run_ops. simpl. cbn [fst].
      rewrite Hidx, Hconv, Hlen1, Hdc.
      rewrite Hidx in Hfin1.
      repeat split; try assumption.
      * rewrite Hjobs. apply skipn_update_job. lia.
      * rewrite Hjobs. now apply map_input_path_update_job with j.
    + assert (Hc1 : MC.is_converting self1 = true).
      { rewrite Hconv. apply Nat.ltb_lt. lia. }
      assert (Hle1 : (MC.current_job_index self1 + S k <= length (MC.jobs self1))%nat)
        by (rewrite Hidx, Hlen1; lia).
      destruct (IH self1 (snd (MC.run_current_job W self s j)) Hc1 Hle1 Hfin1)
        as (Ha & Hb & Hc' & Hd & He & Hf & Hg).
      rewrite Hidx, Hlen1 in *.
      replace (MC.current_job_index self + 1 + S k)%nat
        with (MC.current_job_index self + S (S k))%nat in * by lia.
      repeat split; try assumption.
      * intros _. now apply Hb.
      * rewrite He, Hjobs. apply skipn_update_job. lia.
      * rewrite Hf, Hjobs. now apply map_input_path_update_job with j.
      * now rewrite Hg.
Qed.

Lemma finished_counts js :
  Forall MC.finished js ->
  MC.count_status "pending" js = 0%nat
  /\ MC.count_status "processing" js = 0%nat
  /\ (MC.count_status "completed" js + MC.count_status "failed" js)%nat = length js.
Proof.
  unfold MC.count_status.
  induction 1 as [|j js Hj H IH]; [auto|].
  destruct IH as (I1 & I2 & I3).
  simpl. destruct Hj as [-> | ->]; simpl; repeat split; lia.
Qed.

(** Every run ends. On an active run at its first job, as many calls of
    [process_next_job] as there are jobs leave every job completed or failed
    (none pending or processing), for the same input files in the same
    order, and the run is over: [is_converting] is false and the summary
    counts satisfy completed + failed = total. *)
Theorem every_job_ends_completed_or_failed W self s :
  MC.is_converting self = true ->
  MC.current_job_index self = 0%nat ->
  MC.jobs self <> [] ->
  let final := fst (MC.run_ops W (repeat MC.OpProcess (length (MC.jobs self))) (self, s)) in
  Forall MC.finished (MC.jobs final)
  /\ map MC.input_path (MC.jobs final) = map MC.input_path (MC.jobs self)
  /\ MC.is_converting final = false
  /\ MC.pending (MC.get_conversion_summary final) = 0%nat
  /\ MC.processing (MC.get_conversion_summary final) = 0%nat
  /\ (MC.completed (MC.get_conversion_summary final)
      + MC.failed (MC.get_conversion_summary final))%nat
     = MC.total (MC.get_conversion_summary final).
Proof.
  intros Hc Hi Hne final. subst final.
  destruct (process_many W (length (MC.jobs self)) self s Hc)
    as (Ha & Hb & Hlen & Hfin & _ & Hin & _).
  { rewrite Hi. simpl. lia. }
  { rewrite Hi. constructor. }
  rewrite Hi in *. cbn [Nat.add] in *.
  rewrite firstn_all2 in Hfin by (rewrite Hlen; apply Nat.le_refl).
  destruct (finished_counts _ Hfin) as (C1 & C2 & C3).
  repeat split; try assumption.
  rewrite Hb.
  - apply Nat.ltb_irrefl.
  - destruct (MC.jobs self); [contradiction|discriminate].
Qed.

Lemma every_job_ends_completed_or_failed_witness :
  let W := Sample.only_fallback_works in
  let fs := ["a.docx"; "b.pdf"; "c.txt"] in
  let st := MC.start_conversion W (MC.init W fs) fs fs "out" "txt" "Média" in
  map MC.status
      (MC.jobs (fst (MC.run_ops W (repeat MC.OpProcess 2) (snd (fst st), snd st))))
  = ["completed"; "completed"]
  /\ MC.is_converting
       (fst (MC.run_ops W (repeat MC.OpProcess 2) (snd (fst st), snd st))) = false.
Proof.
  intros W fs st.
  destruct (every_job_ends_completed_or_failed W (snd (fst st)) (snd st)
              eq_refl eq_refl)
    as (_ & _ & Hconv & _).
  - discriminate.
  - split; [reflexivity|exact Hconv].
Defined.

Lemma convert_without_candidates W dc s ip op tf q cb :
  DC.engines_to_try dc (DC.extension W ip) tf = [] ->
  let r := DC.convert W dc s ip op tf q cb in
  fst (fst (fst r)) = false /\ DC.attempts (snd (fst r)) = [] /\ snd r = s.
Proof.
  intros He r. destruct r as [[res evs] s'] eqn:Hr. subst r. cbn [fst snd].
  destruct (convert_inv _ _ _ _ _ _ _ _ _ _ _ Hr)
    as [(Hnone & Hres & Hs & _) | (Hne & _)]; [auto|contradiction].
Qed.

(** A video, audio or image job is never converted: the converter classes
    for these types define no [can_convert], so [process_next_job] ends the
    job as failed with the AttributeError text as its message, without
    calling any engine and without touching the environment. *)
Theorem media_job_fails_without_its_converter W self s j c :
  MC.is_converting self = true ->
  nth_error (MC.jobs self) (MC.current_job_index self) = Some j ->
  MC.get_converter_for_type (MC.detect_file_type W s (MC.input_path j)) = Some c ->
  c <> MC.DocumentConverter ->
  exists self',
    MC.process_next_job W self s
    = ((false, (MC.current_job_index self + 1 <? length (MC.jobs self))%nat), self', s)
    /\ nth_error (MC.jobs self') (MC.current_job_index self)
       = Some (MC.set_error_message
                 ("Erro durante a conversão: '" ++ MC.converter_class_name c
                    ++ "' object has no attribute 'can_convert'")
                 (MC.set_status "failed" j))
    /\ MC.engine_attempts (MC.log self') = MC.engine_attempts (MC.log self).
Proof.
  intros Hc Hj Hconv Hnd.
  assert (HR : MC.run_current_job W self s j
               = ((false, "Erro durante a conversão: '" ++ MC.converter_class_name c
                            ++ "' object has no attribute 'can_convert'"), [], s)).
  { unfold MC.run_current_job.
    destruct (String.eqb (MC.detect_file_type W s (MC.input_path j)) "unknown") eqn:E.
    - apply String.eqb_eq in E. rewrite E in Hconv. discriminate.
    - rewrite Hconv. destruct c; try reflexivity. now elim Hnd. }
  destruct (process_next_job_step W self s j Hc Hj)
    as (self' & Hp & Hjobs & _ & _ & _ & Hlog).
  cbv zeta in Hp, Hjobs, Hlog. rewrite HR in Hp, Hjobs, Hlog. cbn [fst snd] in *.
  exists self'. split; [exact Hp|]. split.
  - rewrite Hjobs. exact (nth_error_update_job _ _ _ _ Hj).
  - rewrite Hlog. apply app_nil_r.
Qed.

Lemma media_job_fails_without_its_converter_witness :
  let W := Sample.all_good in
  let fs := ["v.mp4"] in
  let st := MC.start_conversion W (MC.init W fs) fs fs "out" "avi" "Média" in
  exists self',
    MC.process_next_job W (snd (fst st)) (snd st) = ((false, false), self', snd st)
    /\ nth_error (MC.jobs self') 0
       = Some (MC.set_error_message
                 "Erro durante a conversão: 'VideoConverter' object has no attribute 'can_convert'"
                 (MC.set_status "failed" (MC.new_job "v.mp4" "out/v.avi" "avi" "Média")))
    /\ MC.engine_attempts (MC.log self') = [].
Proof.
  intros W fs st.
  apply (media_job_fails_without_its_converter
           W (snd (fst st)) (snd st)
           (MC.new_job "v.mp4" "out/v.avi" "avi" "Média") MC.VideoConverter);
    [reflexivity | reflexivity | reflexivity | discriminate].
Defined.

Lemma document_extension_facts ext tf :
  str_in ext DC.supported_input = true ->
  MC.is_format_supported ext tf = true ->
  MC.lookup ext MC.extension_mapping = Some "document"
  /\ DC.can_convert ext tf = true.
Proof.
  intros Hin Hs. apply str_in_In in Hin. unfold DC.supported_input in Hin.
  unfold MC.is_format_supported in Hs.
  destruct (String.eqb (lower ext) (lower tf)); [discriminate|].
  simpl in Hin.
  repeat (destruct Hin as [Hin|Hin];
          [subst ext; split; [reflexivity|];
           unfold DC.can_convert; simpl in Hs |- *;
           now rewrite orb_false_r in Hs|]).
  contradiction.
Qed.

Lemma document_job_dispatch W self s j :
  str_in (DC.extension W (MC.input_path j)) DC.supported_input = true ->
  MC.is_format_supported (DC.extension W (MC.input_path j)) (MC.target_format j) = true ->
  let c := DC.convert W (MC.document_converter self) s
                      (MC.input_path j) (MC.output_path j)
                      (MC.target_format j) (MC.quality j) true in
  MC.run_current_job W self s j
  = (fst (fst c), flat_map (MC.relay self) (snd (fst c)), snd c).
Proof.
  intros Hin Hs c. subst c.
  destruct (document_extension_facts _ _ Hin Hs) as [Hl Hcan].
  unfold MC.run_current_job, MC.detect_file_type. rewrite Hl.
  cbn [String.eqb MC.get_converter_for_type MC.lookup].
  change (String.eqb "document" "unknown") with false. cbv iota.
  change (MC.lookup "document"
            [("video", MC.VideoConverter); ("audio", MC.AudioConverter);
             ("image", MC.ImageConverter); ("document", MC.DocumentConverter)])
    with (Some MC.DocumentConverter).
  cbv iota. rewrite Hcan. cbn [negb].
  now destruct (DC.convert _ _ _ _ _ _ _ _) as [[r evs] s'].
Qed.

(** A job that [add_conversion_job] accepted for a file with a document
    extension is always handed to [DocumentConverter.convert]: the result of
    [process_next_job], the environment it leaves and the engine calls it
    adds to the log are those of that [convert] call, and the job ends
    completed or failed according to its result. *)
Theorem accepted_document_job_goes_to_the_router W self s j :
  MC.is_converting self = true ->
  nth_error (MC.jobs self) (MC.current_job_index self) = Some j ->
  str_in (DC.extension W (MC.input_path j)) DC.supported_input = true ->
  MC.is_format_supported (DC.extension W (MC.input_path j)) (MC.target_format j) = true ->
  let c := DC.convert W (MC.document_converter self) s
                      (MC.input_path j) (MC.output_path j)
                      (MC.target_format j) (MC.quality j) true in
  exists self',
    MC.process_next_job W self s
    = ((fst (fst (fst c)),
        (MC.current_job_index self + 1 <? length (MC.jobs self))%nat), self', snd c)
    /\ nth_error (MC.jobs self') (MC.current_job_index self)
       = Some (if fst (fst (fst c))
               then MC.set_progress 100 (MC.set_status "completed" j)
               else MC.set_error_message (snd (fst (fst c))) (MC.set_status "failed" j))
    /\ MC.engine_attempts (MC.log self')
       = (MC.engine_attempts (MC.log self) ++ DC.attempts (snd (fst c)))%list.
Proof.
  intros Hc Hj Hin Hs c.
  pose proof (document_job_dispatch W self s j Hin Hs) as HR. cbv zeta in HR. fold c in HR.
  destruct (process_next_job_step W self s j Hc Hj)
    as (self' & Hp & Hjobs & _ & _ & _ & Hlog).
  cbv zeta in Hp, Hjobs, Hlog. rewrite HR in Hp, Hjobs, Hlog. cbn [fst snd] in *.
  exists self'. split; [exact Hp|]. split.
  - rewrite Hjobs. exact (nth_error_update_job _ _ _ _ Hj).
  - rewrite Hlog, attempts_relay. reflexivity.
Qed.

Lemma accepted_document_job_goes_to_the_router_witness :
  let W := Sample.only_fallback_works in
  let fs := ["a.docx"] in
  let st := MC.start_conversion W (MC.init W fs) fs fs "out" "txt" "Média" in
  exists self',
    MC.process_next_job W (snd (fst st)) (snd st)
    = ((true, false), self', ["out/a.txt"; "out"; "a.docx"])
    /\ map (fun a => engine_of (fst a)) (MC.engine_attempts (MC.log self'))
       = [OnlyOfficeEngine; LibreOfficeEngine; FallbackEngine].
Proof.
  intros W fs st.
  destruct (accepted_document_job_goes_to_the_router
              W (snd (fst st)) (snd st)
              (MC.new_job "a.docx" "out/a.txt" "txt" "Média")
              eq_refl eq_refl eq_refl eq_refl)
    as (self' & Hp & _ & Hlog).
  exists self'. split; [exact Hp|]. rewrite Hlog. reflexivity.
Defined.

Lemma window_formats_are_not_lowercase tf :
  In tf MainWindow.output_format_items ->
  MainWindow.format_not_chosen tf = false ->
  lower tf <> tf.
Proof.
  unfold MainWindow.output_format_items. simpl.
  intros H Hch.
  repeat (destruct H as [<-|H]; [try discriminate|]);
    try contradiction.
Qed.

Lemma uppercase_target_outcome W self s s0 j :
  MC.document_converter self = DC.init W s0 ->
  lower (MC.target_format j) <> MC.target_format j ->
  fst (fst (fst (MC.run_current_job W self s j))) = false
  /\ MC.engine_attempts (snd (fst (MC.run_current_job W self s j))) = []
  /\ snd (MC.run_current_job W self s j) = s.
Proof.
  intros Hdc Hup. unfold MC.run_current_job.
  destruct (String.eqb _ "unknown"); [auto|].
  destruct (MC.get_converter_for_type _) as [[| | |]|]; auto.
  destruct (negb _); [auto|].
  rewrite Hdc.
  destruct (convert_without_candidates
              W (DC.init W s0) s (MC.input_path j) (MC.output_path j)
              (MC.target_format j) (MC.quality j) true
              (engines_to_try_needs_lowercase_target W s0 _ _ Hup))
    as (H1 & H2 & H3).
  destruct (DC.convert _ _ _ _ _ _ _ _) as [[r evs] s']. cbn [fst snd] in *.
  rewrite attempts_relay. auto.
Qed.

(** No conversion started from the window can succeed. Every format the
    window offers and [on_convert] lets through is written in upper case
    (MP3 ... RTF), and the job's target format is that text as it is; for
    such a job [process_next_job] returns failure, the job ends failed, no
    engine is called and the environment is untouched. *)
Theorem job_started_from_the_window_fails W self s s0 j :
  MC.is_converting self = true ->
  nth_error (MC.jobs self) (MC.current_job_index self) = Some j ->
  MC.document_converter self = DC.init W s0 ->
  In (MC.target_format j) MainWindow.output_format_items ->
  MainWindow.format_not_chosen (MC.target_format j) = false ->
  exists self' j',
    MC.process_next_job W self s
    = ((false, (MC.current_job_index self + 1 <? length (MC.jobs self))%nat), self', s)
    /\ nth_error (MC.jobs self') (MC.current_job_index self) = Some j'
    /\ MC.status j' = "failed"
    /\ MC.engine_attempts (MC.log self') = MC.engine_attempts (MC.log self).
Proof.
  intros Hc Hj Hdc Hin Hch.
  pose proof (window_formats_are_not_lowercase _ Hin Hch) as Hup.
  destruct (uppercase_target_outcome W self s s0 j Hdc Hup) as (H1 & H2 & H3).
  destruct (process_next_job_step W self s j Hc Hj)
    as (self' & Hp & Hjobs & _ & _ & _ & Hlog).
  cbv zeta in Hp, Hjobs, Hlog. rewrite H1 in Hp, Hjobs. rewrite H3 in Hp.
  rewrite H2, app_nil_r in Hlog.
  exists self'. eexists. split; [exact Hp|]. split; [|split; [|exact Hlog]].
  - rewrite Hjobs. exact (nth_error_update_job _ _ _ _ Hj).
  - reflexivity.
Qed.

Lemma job_started_from_the_window_fails_witness :
  let W := Sample.all_good in
  let fs := ["a.docx"] in
  let st := MC.start_conversion W (MC.init W fs) fs fs "out" "PDF" "Média" in
  fst (fst st) = true
  /\ exists self' j',
      MC.process_next_job W (snd (fst st)) (snd st) = ((false, false), self', snd st)
      /\ nth_error (MC.jobs self') 0 = Some j'
      /\ MC.status j' = "failed"
      /\ MC.engine_attempts (MC.log self') = [].
Proof.
  intros W fs st. split; [reflexivity|].
  apply (job_started_from_the_window_fails
           W (snd (fst st)) (snd st) fs
           (MC.new_job "a.docx" "out/a.pdf" "PDF" "Média"));
    try reflexivity.
  simpl. tauto.
Defined.

(** ** [ConversionWorker.run] *)

Module CW := ConversionWorker.

Lemma pending_add W self s p d f q :
  Forall (fun j => MC.status j = "pending") (MC.jobs self) ->
  Forall (fun j => MC.status j = "pending")
         (MC.jobs (snd (MC.add_conversion_job W self s p d f q))).
Proof.
  intros H. unfold MC.add_conversion_job.
  destruct (negb _); [exact H|].
  destruct (String.eqb _ _); [exact H|].
  destruct (negb _); [exact H|].
  simpl. apply Forall_app. split; [exact H|]. repeat constructor.
Qed.

Lemma pending_add_all W s d f q file_paths :
  forall self,
    Forall (fun j => MC.status j = "pending") (MC.jobs self) ->
    Forall (fun j => MC.status j = "pending")
           (MC.jobs (MC.add_all W self s file_paths d f q)).
Proof.
  induction file_paths as [|p rest IH]; intros self H; simpl; [exact H|].
  apply IH. now apply pending_add.
Qed.

(** The object a successful [start_conversion] leaves. *)
Lemma start_success_state W self s file_paths d f q self1 s1 :
  MC.start_conversion W self s file_paths d f q = (true, self1, s1) ->
  MC.is_converting self1 = true
  /\ MC.current_job_index self1 = 0%nat
  /\ MC.jobs self1 <> []
  /\ Forall (fun j => MC.status j = "pending") (MC.jobs self1).
Proof.
  unfold MC.start_conversion.
  destruct (MC.is_converting self) eqn:Hc; [discriminate|].
  destruct (MC.validate_conversion_setup W s file_paths d f) as [[ok msg] s0].
  destruct ok; cbn [negb]; [|discriminate].
  assert (Hp : Forall (fun j => MC.status j = "pending")
                      (MC.jobs (MC.add_all W (MC.clear_jobs self) s0 file_paths d f q))).
  { apply pending_add_all. unfold MC.clear_jobs. rewrite Hc. constructor. }
  destruct (MC.jobs (MC.add_all W (MC.clear_jobs self) s0 file_paths d f q))
    as [|j js] eqn:Ej; [discriminate|].
  intros [= <- <-].
  rewrite converting_say, index_say, jobs_say.
  cbn [MC.jobs MC.with_index MC.with_converting MC.current_job_index MC.is_converting].
  rewrite Ej. repeat split; try assumption. discriminate.
Qed.

Lemma run_ops_process_cons W k self s :
  MC.run_ops W (repeat MC.OpProcess (S k)) (self, s)
  = MC.run_ops W (repeat MC.OpProcess k)
      (snd (fst (MC.process_next_job W self s)), snd (MC.process_next_job W self s)).
Proof.
  unfold MC.run_ops. simpl.
  now destruct (MC.process_next_job W self s) as [[r self'] s'].
Qed.

(** The loop when the stop flag stays down for [m] more jobs and these are
    all the jobs left: it processes them and is left by [break]. *)
Lemma loop_runs W stop_after :
  forall m fuel processed converter s,
    MC.is_converting converter = true ->
    (MC.current_job_index converter + m = length (MC.jobs converter))%nat ->
    (1 <= m)%nat -> (m <= fuel)%nat ->
    (forall c, (processed <= c < processed + m)%nat -> CW.should_stop stop_after c = false) ->
    let st := MC.run_ops W (repeat MC.OpProcess m) (converter, s) in
    CW.loop W fuel stop_after processed converter s
    = Some (fst st, snd st, (processed + m)%nat).
Proof.
  induction m as [|m IH]; intros fuel processed converter s Hc Hm H1 Hf Hflag st;
    [lia|].
  subst st. destruct fuel as [|fuel]; [lia|].
  cbn [CW.loop]. rewrite Hc, (Hflag processed) by lia. cbn [negb andb].
  destruct (nth_error (MC.jobs converter) (MC.current_job_index converter)) as [j|] eqn:Hj;
    [|apply nth_error_None in Hj; lia].
  destruct (process_next_job_step W converter s j Hc Hj)
    as (self1 & Hp & Hjobs & Hidx & Hconv & _).
  cbv zeta in Hp, Hconv. rewrite run_ops_process_cons, Hp. cbn [fst snd].
  assert (Hlen1 : length (MC.jobs self1) = length (MC.jobs converter)).
  { rewrite Hjobs. apply length_update_job. }
  destruct m as [|m].
  - replace (MC.current_job_index converter + 1 <? length (MC.jobs converter))%nat
      with false by (symmetry; apply Nat.ltb_ge; lia).
    cbn [negb]. unfold MC.run_ops. simpl. do 2 f_equal. lia.
  - replace (MC.current_job_index converter + 1 <? length (MC.jobs converter))%nat
      with true in * by (symmetry; apply Nat.ltb_lt; lia).
    cbn [negb].
    rewrite (IH fuel (S processed) self1 _ Hconv); try lia.
    + do 2 f_equal. lia.
    + intros c Hcr. apply Hflag. lia.
Qed.

(** The loop when the stop flag goes up after [d] more jobs, with jobs still
    left then: it processes [d] jobs and is left at the flag. *)
Lemma loop_stops W k :
  forall d fuel processed converter s,
    (processed + d = k)%nat ->
    MC.is_converting converter = true ->
    (MC.current_job_index converter + d < length (MC.jobs converter))%nat ->
    (d < fuel)%nat ->
    let st := MC.run_ops W (repeat MC.OpProcess d) (converter, s) in
    CW.loop W fuel (Some k) processed converter s = Some (fst st, snd st, k).
Proof.
  induction d as [|d IH]; intros fuel processed converter s Hk Hc Hlt Hf st; subst st;
    (destruct fuel as [|fuel]; [lia|]); cbn [CW.loop CW.should_stop]; rewrite Hc.
  - replace (k <=? processed)%nat with true by (symmetry; apply Nat.leb_le; lia).
    cbn [negb andb]. unfold MC.run_ops. simpl. do 2 f_equal. lia.
  - replace (k <=? processed)%nat with false by (symmetry; apply Nat.leb_gt; lia).
    cbn [negb andb].
    destruct (nth_error (MC.jobs converter) (MC.current_job_index converter)) as [j|] eqn:Hj;
      [|apply nth_error_None in Hj; lia].
    destruct (process_next_job_step W converter s j Hc Hj)
      as (self1 & Hp & Hjobs & Hidx & Hconv & _).
    cbv zeta in Hp, Hconv. rewrite run_ops_process_cons, Hp. cbn [fst snd].
    assert (Hlen1 : length (MC.jobs self1) = length (MC.jobs converter)).
    { rewrite Hjobs. apply length_update_job. }
    replace (MC.current_job_index converter + 1 <? length (MC.jobs converter))%nat
      with true in * by (symmetry; apply Nat.ltb_lt; lia).
    cbn [negb]. apply IH; try lia. exact Hconv.
Qed.

(** [ConversionWorker.run] when [stop()] is never called. The loop always
    ends (one more turn than there are jobs is enough). If
    [start_conversion] refuses, the only signal is
    conversion_finished(False, 'Falha ao iniciar conversão') and nothing is
    processed. Otherwise every job of the run has been processed once, in
    order, and is completed or failed, the run is over, and the signal
    carries success exactly when no job failed. *)
Theorem worker_runs_every_job W converter s file_paths output_dir tf q :
  let st := MC.start_conversion W converter s file_paths output_dir tf q in
  exists ok message converter' s',
    CW.run W converter s file_paths output_dir tf q None
    = Some ([CW.conversion_finished ok message], converter', s')
    /\ if fst (fst st)
       then (converter', s')
            = MC.run_ops W (repeat MC.OpProcess (length (MC.jobs (snd (fst st)))))
                         (snd (fst st), snd st)
            /\ Forall MC.finished (MC.jobs converter')
            /\ map MC.input_path (MC.jobs converter')
               = map MC.input_path (MC.jobs (snd (fst st)))
            /\ MC.is_converting converter' = false
            /\ ok = (MC.count_status "failed" (MC.jobs converter') =? 0)%nat
       else ok = false /\ message = "Falha ao iniciar conversão"
            /\ converter' = snd (fst st) /\ s' = snd st.
Proof.
  intros st. subst st. unfold CW.run.
  destruct (MC.start_conversion W converter s file_paths output_dir tf q)
    as [[ok1 conv1] s1] eqn:Hst.
  cbn [fst snd]. destruct ok1; cbn [negb].
  - destruct (start_success_state _ _ _ _ _ _ _ _ _ Hst) as (Hc & Hi & Hne & _).
    assert (Hn : (1 <= length (MC.jobs conv1))%nat).
    { destruct (MC.jobs conv1); [contradiction|simpl; lia]. }
    rewrite (loop_runs W None (length (MC.jobs conv1))) by
        (try assumption; try lia; try reflexivity; rewrite Hi; reflexivity).
    cbn [CW.should_stop].
    destruct (process_many W (length (MC.jobs conv1)) conv1 s1 Hc)
      as (_ & Hb & Hlen & Hfin & _ & Hin & _).
    { rewrite Hi. simpl. lia. }
    { rewrite Hi. constructor. }
    rewrite Hi in *. cbn [Nat.add] in *.
    rewrite firstn_all2 in Hfin by (rewrite Hlen; apply Nat.le_refl).
    assert (Hconv : MC.is_converting
                      (fst (MC.run_ops W (repeat MC.OpProcess (length (MC.jobs conv1)))
                                       (conv1, s1))) = false).
    { rewrite Hb by lia. apply Nat.ltb_irrefl. }
    destruct (MC.run_ops W (repeat MC.OpProcess (length (MC.jobs conv1))) (conv1, s1))
      as [conv2 s2] eqn:Hrun.
    cbn [fst snd MC.get_conversion_summary MC.failed] in *.
    destruct (MC.count_status "failed" (MC.jobs conv2) =? 0)%nat eqn:Hf;
      do 4 eexists; (split; [reflexivity|]); rewrite ?Hf; repeat split; assumption.
  - do 4 eexists. split; [reflexivity|]. repeat split.
Qed.

(** Stopping is cooperative. When [stop()] is called while the [k]-th job of
    a run of at least [k] jobs is processed (or before the first job, for
    [k] = 0), [run] lets that job end, processes no further job, calls
    [stop_conversion] and emits conversion_finished(False, 'Conversão
    interrompida'): the first [k] jobs are completed or failed, the others
    are still pending, and the run is halted. This is also what is reported
    when the stop falls in the last job, all jobs being processed. *)
Theorem worker_stop_is_cooperative
        W converter s file_paths output_dir tf q conv1 s1 k :
  MC.start_conversion W converter s file_paths output_dir tf q = (true, conv1, s1) ->
  (k <= length (MC.jobs conv1))%nat ->
  exists converter' s',
    CW.run W converter s file_paths output_dir tf q (Some k)
    = Some ([CW.conversion_finished false "Conversão interrompida"], converter', s')
    /\ MC.is_converting converter' = false
    /\ Forall MC.finished (firstn k (MC.jobs converter'))
    /\ Forall (fun j => MC.status j = "pending") (skipn k (MC.jobs converter'))
    /\ map MC.input_path (MC.jobs converter') = map MC.input_path (MC.jobs conv1).
Proof.
  intros Hst Hk. unfold CW.run. rewrite Hst. cbn [negb].
  destruct (start_success_state _ _ _ _ _ _ _ _ _ Hst) as (Hc & Hi & Hne & Hpend).
  assert (Hn : (1 <= length (MC.jobs conv1))%nat).
  { destruct (MC.jobs conv1); [contradiction|simpl; lia]. }
  assert (Hloop : CW.loop W (S (length (MC.jobs conv1))) (Some k) 0 conv1 s1
                  = Some (fst (MC.run_ops W (repeat MC.OpProcess k) (conv1, s1)),
                          snd (MC.run_ops W (repeat MC.OpProcess k) (conv1, s1)), k)).
  { destruct (Nat.eq_dec k (length (MC.jobs conv1))) as [->|Hneq].
    - rewrite (loop_runs W (Some (length (MC.jobs conv1))) (length (MC.jobs conv1)));
        try assumption; try lia; [reflexivity|].
      intros c Hcr. cbn [CW.should_stop]. apply Nat.leb_gt. lia.
    - apply loop_stops; try assumption; lia. }
  rewrite Hloop. cbn [CW.should_stop]. rewrite Nat.leb_refl.
  destruct (process_many W k conv1 s1 Hc) as (_ & _ & _ & Hfin & Hskip & Hin & _).
  { rewrite Hi. simpl. lia. }
  { rewrite Hi. constructor. }
  rewrite Hi in *. cbn [Nat.add] in *.
  do 2 eexists. split; [reflexivity|].
  rewrite converting_stop, jobs_stop, Hskip.
  repeat split; try assumption.
  clear - Hpend. revert k. induction Hpend as [|j js Hj H IH]; intros [|k]; simpl;
    try constructor; auto.
Qed.

Lemma worker_stop_is_cooperative_witness :
  let W := Sample.all_good in
  let fs := ["a.docx"; "b.txt"; "c.docx"] in
  exists converter' s',
    CW.run W (MC.init W fs) fs fs "out" "pdf" "Média" (Some 1%nat)
    = Some ([CW.conversion_finished false "Conversão interrompida"], converter', s')
    /\ map MC.status (MC.jobs converter') = ["completed"; "pending"; "pending"]
    /\ MC.is_converting converter' = false.
Proof.
  intros W fs.
  destruct (worker_stop_is_cooperative
              W (MC.init W fs) fs fs "out" "pdf" "Média"
              (snd (fst (MC.start_conversion W (MC.init W fs) fs fs "out" "pdf" "Média")))
              (snd (MC.start_conversion W (MC.init W fs) fs fs "out" "pdf" "Média"))
              1%nat eq_refl)
    as (converter' & s' & Hrun & Hconv & _).
  - simpl. lia.
  - exists converter', s'. split; [exact Hrun|]. split; [|exact Hconv].
    assert (Hc : Some ([CW.conversion_finished false "Conversão interrompida"],
                       converter', s')
                 = CW.run W (MC.init W fs) fs fs "out" "pdf" "Média" (Some 1%nat))
      by (symmetry; exact Hrun).
    vm_compute in Hc. injection Hc as -> _. reflexivity.
Defined.

(** ** The FFmpeg path: [run_ffmpeg_conversion] and the media converters *)

(** [VideoConverter.convert] never succeeds, and never runs FFmpeg. Past its
    three checks it calls [run_ffmpeg_conversion] with the keywords
    [target_format], [quality], [progress_callback] and the preset's, none of
    which is a parameter of that function; the TypeError of the call is
    caught and becomes the failure message. *)
Theorem video_convert_never_succeeds W T s ip op tf q cb :
  let r := VideoConverter.convert W T s ip op tf q cb in
  fst (fst (fst r)) = false
  /\ snd (fst r) = []
  /\ snd r = s
  /\ (VideoConverter.is_supported_input W ip = true ->
      VideoConverter.is_supported_output tf = true ->
      path_exists W s ip = true ->
      snd (fst (fst r))
      = "Erro na conversão de vídeo: run_ffmpeg_conversion() got an unexpected keyword argument 'target_format'").
Proof.
  intros r. subst r. unfold VideoConverter.convert.
  destruct (VideoConverter.is_supported_input W ip); cbn [negb];
    [|repeat split; discriminate].
  destruct (VideoConverter.is_supported_output tf); cbn [negb];
    [|repeat split; discriminate].
  destruct (path_exists W s ip); cbn [negb]; [|repeat split; discriminate].
  repeat split.
Qed.

(** [AudioConverter.convert] never succeeds either, for the same reason. *)
Theorem audio_convert_never_succeeds W T s ip op tf q cb :
  let r := AudioConverter.convert W T s ip op tf q cb in
  fst (fst (fst r)) = false
  /\ snd (fst r) = []
  /\ snd r = s
  /\ (AudioConverter.is_supported_input W ip = true ->
      AudioConverter.is_supported_output tf = true ->
      path_exists W s ip = true ->
      snd (fst (fst r))
      = "Erro na conversão de áudio: run_ffmpeg_conversion() got an unexpected keyword argument 'target_format'").
Proof.
  intros r. subst r. unfold AudioConverter.convert.
  destruct (AudioConverter.is_supported_input W ip); cbn [negb];
    [|repeat split; discriminate].
  destruct (AudioConverter.is_supported_output tf); cbn [negb];
    [|repeat split; discriminate].
  destruct (path_exists W s ip); cbn [negb]; [|repeat split; discriminate].
  repeat split.
Qed.

(** What a success of [run_ffmpeg_conversion] stands for: the FFmpeg
    executable and the input file existed, exactly one command was run,
    [ffmpeg -i input <options> -y output], and the output file exists when
    the function returns. *)
Theorem ffmpeg_success_means_output_exists W T s ip op qp ft m commands s' :
  Ffmpeg.run_ffmpeg_conversion W T s ip op qp ft = (Returns true m, commands, s') ->
  path_exists W s' op = true
  /\ path_exists W s (Ffmpeg.ffmpeg_path T) = true
  /\ path_exists W s ip = true
  /\ commands = [([Ffmpeg.ffmpeg_path T; "-i"; ip]
                  ++ Ffmpeg.format_options qp ft ++ ["-y"; op])%list]
  /\ m = "Conversão concluída com sucesso!".
Proof.
  unfold Ffmpeg.run_ffmpeg_conversion.
  destruct (path_exists W s (Ffmpeg.ffmpeg_path T)); cbn [negb]; [|discriminate].
  destruct (path_exists W s ip); cbn [negb]; [|discriminate].
  destruct (if (negb (Ffmpeg.dirname T op =? EmptyString)%string
                && negb (path_exists W s (Ffmpeg.dirname T op)))%bool
            then makedirs W s (Ffmpeg.dirname T op) else (None, s))
    as [[e|] s1]; [discriminate|].
  destruct (Ffmpeg.subprocess_run T s1 _) as [[| | | |] s2]; try discriminate.
  destruct (path_exists W s2 op) eqn:Ho; [|discriminate].
  intros [= <- <- <-]. auto.
Qed.

Lemma ffmpeg_success_means_output_exists_witness :
  let W := Sample.all_good in
  let T := Sample.tools (fun _ => true)
             (fun _ => ([(50, "a meio"); (100, "feito")], Returns true "ok")) in
  path_exists W ["v.avi"; "bin/ffmpeg.exe"; "v.mp4"] "v.avi" = true
  /\ [["bin/ffmpeg.exe"; "-i"; "v.mp4"; "-c:v"; "libx264"; "-crf"; "18";
       "-c:a"; "aac"; "-b:a"; "128k"; "-y"; "v.avi"]]
     = [(["bin/ffmpeg.exe"; "-i"; "v.mp4"]
         ++ Ffmpeg.format_options "Alta" "video" ++ ["-y"; "v.avi"])%list].
Proof.
  intros W T.
  destruct (ffmpeg_success_means_output_exists
              W T ["bin/ffmpeg.exe"; "v.mp4"] "v.mp4" "v.avi" "Alta" "video"
              "Conversão concluída com sucesso!"
              [["bin/ffmpeg.exe"; "-i"; "v.mp4"; "-c:v"; "libx264"; "-crf"; "18";
                "-c:a"; "aac"; "-b:a"; "128k"; "-y"; "v.avi"]]
              ["v.avi"; "bin/ffmpeg.exe"; "v.mp4"] eq_refl)
    as (Hout & _ & _ & Hcmd & _).
  split; [exact Hout|exact Hcmd].
Defined.

(** When ffprobe gives nothing, [detect_format_type] goes by the extension;
    whenever it then recognises a file as video, audio or image,
    [MainConverter]'s extension mapping gives the same type. *)
Theorem ffmpeg_extension_fallback_agrees W file_path :
  Ffmpeg.detect_format_type W None file_path <> "unknown" ->
  MC.lookup (DC.extension W file_path) MC.extension_mapping
  = Some (Ffmpeg.detect_format_type W None file_path).
Proof.
  unfold Ffmpeg.detect_format_type, DC.extension.
  remember (lower (path_suffix W file_path)) as e eqn:He. clear He.
  repeat match goal with
    | |- context [if str_in e ?l then _ else _] =>
        let H := fresh "H" in
        destruct (str_in e l) eqn:H;
        [ intros _; apply str_in_In in H; simpl in H;
          repeat (destruct H as [<-|H]; [reflexivity|]); contradiction
        | clear H ]
    end.
  intros H. now elim H.
Qed.

Lemma ffmpeg_extension_fallback_agrees_witness :
  MC.lookup "flac" MC.extension_mapping = Some "audio".
Proof.
  apply (ffmpeg_extension_fallback_agrees Sample.all_good "song.FLAC"). discriminate.
Defined.

Lemma lower_lower s : lower (lower s) = lower s.
Proof.
  induction s as [|c s IH]; [reflexivity|]. simpl. rewrite IH. f_equal.
  destruct c as [[] [] [] [] [] [] [] []]; reflexivity.
Qed.

Lemma lower_upper s : lower (upper s) = lower s.
Proof.
  induction s as [|c s IH]; [reflexivity|]. simpl. rewrite IH. f_equal.
  destruct c as [[] [] [] [] [] [] [] []]; reflexivity.
Qed.

